(** * haasngc_post: the Haas NGC post-processor, embedded and verified

    A shallow embedding of [src/haasngc_post.py]: the option resolver
    [processArguments], the line-number helper [linenumber], the per-leaf
    translator [parse] and the driver [export], followed by the properties
    proved about them.

    Conventions of the embedding.
    - Python exceptions are values of [exn]; a computation that may raise
      returns a [result].  An exception ends the run: what the module
      holds after it is not modelled.
    - The module-level names the code only reads after option processing
      (OUTPUT_COMMENTS, MODAL, PRECISION, PREAMBLE, ...) are the fields of
      [settings]; the two module-level names that [parse] and [linenumber]
      assign (LINENR, tapSpeed) are the fields of [state] and are threaded
      through every call.
    - Text is ASCII.  The case mapping and the white-space class that Python
      gives to code points above 127 are not modelled.
    - FreeCAD's quantities and Python's float formatting are behind the
      interface [NumLib]; argparse, shlex, the time stamp and the preview
      dialog are behind the interface [Host]. *)

From Stdlib Require Import ZArith QArith Strings.String Strings.Ascii.
From Stdlib Require Import List Bool DecimalString Lia.
From stdpp Require Import base option list gmap strings.

Local Open Scope Z_scope.
Local Open Scope string_scope.

(** ** Exceptions and results *)

Inductive exn : Set :=
| AttributeError | TypeError | IndexError | KeyError | ValueError
| OverflowError | SystemExit.

(** [except Exception] catches everything but the exits, which derive from
    BaseException only. *)
Definition is_Exception (e : exn) : bool :=
  match e with SystemExit => false | _ => true end.

Inductive result (A : Type) : Type :=
| Ok (a : A)
| Raise (e : exn).
Arguments Ok {A} a.
Arguments Raise {A} e.

#[export] Instance result_ret : MRet result := fun A a => Ok a.
#[export] Instance result_bind : MBind result := fun A B f m =>
  match m with Ok a => f a | Raise e => Raise e end.
#[export] Instance result_fmap : FMap result := fun A B f m =>
  match m with Ok a => Ok (f a) | Raise e => Raise e end.

Definition is_Ok {A} (r : result A) : bool :=
  match r with Ok _ => true | Raise _ => false end.

(** ** Python string operations (ASCII) *)

Definition LF : string := String (ascii_of_nat 10) EmptyString.
Definition CR : ascii := ascii_of_nat 13.

Definition upper_ascii (c : ascii) : ascii :=
  let n := nat_of_ascii c in
  if ((97 <=? n) && (n <=? 122))%nat then ascii_of_nat (n - 32) else c.

(** [s.upper()] *)
Fixpoint upper (s : string) : string :=
  match s with
  | EmptyString => EmptyString
  | String c r => String (upper_ascii c) (upper r)
  end.

(** [c.isspace()]: tab, line feed, vertical tab, form feed, carriage return,
    the four separators 0x1c-0x1f and the blank. *)
Definition is_space (c : ascii) : bool :=
  let n := nat_of_ascii c in
  (((9 <=? n) && (n <=? 13)) || ((28 <=? n) && (n <=? 32)))%nat.

Fixpoint lstrip (s : string) : string :=
  match s with
  | EmptyString => EmptyString
  | String c r => if is_space c then lstrip r else s
  end.

Fixpoint rstrip (s : string) : string :=
  match s with
  | EmptyString => EmptyString
  | String c r =>
      match rstrip r with
      | EmptyString => if is_space c then EmptyString else String c EmptyString
      | r' => String c r'
      end
  end.

(** [s.strip()] *)
Definition strip (s : string) : string := rstrip (lstrip s).

(** [s.replace("  ", " ")]: the occurrences are found left to right and do
    not overlap, so three blanks become two. *)
Fixpoint replace_double_space (s : string) : string :=
  match s with
  | String " " (String " " r) => String " " (replace_double_space r)
  | String c r => String c (replace_double_space r)
  | EmptyString => EmptyString
  end.

(** The line boundaries of [str.splitlines] within ASCII. *)
Definition is_linebreak (c : ascii) : bool :=
  let n := nat_of_ascii c in
  (((10 <=? n) && (n <=? 13)) || ((28 <=? n) && (n <=? 30)))%nat.

Definition snoc (s : string) (c : ascii) : string := s +:+ String c EmptyString.

Fixpoint splitlines_from (keepends : bool) (cur : string) (s : string)
  : list string :=
  match s with
  | EmptyString => if String.eqb cur "" then [] else [cur]
  | String c r =>
      if Ascii.eqb c CR then
        match r with
        | String d r' =>
            if Ascii.eqb d (ascii_of_nat 10) then
              (if keepends then snoc (snoc cur c) d else cur)
                :: splitlines_from keepends "" r'
            else (if keepends then snoc cur c else cur)
                   :: splitlines_from keepends "" r
        | EmptyString => [if keepends then snoc cur c else cur]
        end
      else if is_linebreak c then
        (if keepends then snoc cur c else cur) :: splitlines_from keepends "" r
      else splitlines_from keepends (snoc cur c) r
  end.

(** [s.splitlines(keepends)] *)
Definition splitlines (keepends : bool) (s : string) : list string :=
  splitlines_from keepends "" s.

(** [str(n)] for an int *)
Definition str_Z (z : Z) : string := NilZero.string_of_int (Z.to_int z).

(** [s[0]] *)
Definition first_char (s : string) : result ascii :=
  match s with
  | EmptyString => Raise IndexError
  | String c _ => Ok c
  end.

Definition paren : ascii := "("%char.

(** The value of PRECISION: the int 3 at import, the int 4 after --inches,
    otherwise the string argparse stored. *)
Inductive pyval : Set :=
| PyInt (z : Z)
| PyStr (s : string).

Definition str (v : pyval) : string :=
  match v with PyInt z => str_Z z | PyStr s => s end.

(** ** The numeric library

    Parameter values are Python floats and every conversion goes through
    FreeCAD's [Units.Quantity]; neither is part of this repository.  The
    translator uses them through the operations below only. *)

Class NumLib : Type := {
  (** the values stored in [Command.Parameters] *)
  num : Type;
  (** [a == b] on two such values *)
  num_eqb : num -> num -> bool;
  (** [int(a)] *)
  num_int : num -> result Z;
  (** the values of [Path.Command("G0", {"X": -1, ..., "F": 0.0}).Parameters] *)
  num_minus_one : num;
  num_zero : num;
  (** [format(float(Units.Quantity(a, Length).getValueAs(unit)), spec)] *)
  length_as : string -> string -> num -> result string;
  (** [Units.Quantity(a, Velocity).getValueAs(unit) > 0.0] *)
  velocity_positive : string -> num -> bool;
  (** [format(float(Units.Quantity(a, Velocity).getValueAs(unit)), spec)] *)
  velocity_as : string -> string -> num -> result string
}.

(** ** The host: option parsing, clock and preview dialog *)

(** The namespace [parser.parse_args] returns for the eleven options. *)
Record Namespace : Set := {
  no_header : bool;
  no_comments : bool;
  line_numbers : bool;
  no_show_editor : bool;
  precision : string;
  preamble : option string;
  postamble : option string;
  inches : bool;
  no_modal : bool;
  no_axis_modal : bool;
  no_tlo : bool
}.

Inductive parse_result : Set :=
| Parsed (args : Namespace)
| ParseRaises (e : exn).

Class Host : Type := {
  (** [parser.parse_args(shlex.split(argstring))] *)
  parse_args : string -> parse_result;
  (** [str(now)], fixed when the module is imported *)
  now_str : string;
  (** [FreeCAD.GuiUp] *)
  GuiUp : bool;
  (** what the preview dialog hands back for a text *)
  editor : string -> string
}.

(** ** Module-level configuration and state *)

Record settings : Set := {
  OUTPUT_COMMENTS : bool;
  OUTPUT_HEADER : bool;
  OUTPUT_LINE_NUMBERS : bool;
  SHOW_EDITOR : bool;
  MODAL : bool;
  USE_TLO : bool;
  OUTPUT_DOUBLES : bool;
  UNITS : string;
  UNIT_SPEED_FORMAT : string;
  UNIT_FORMAT : string;
  PRECISION : pyval;
  PREAMBLE : string;
  POSTAMBLE : string;
  PRE_OPERATION : string;
  POST_OPERATION : string;
  TOOL_CHANGE : string
}.

Definition COMMAND_SPACE : string := " ".
Definition MACHINE_NAME : string := "HAASNGC".

(** The values the module assigns when it is imported. *)
Definition default_settings : settings := {|
  OUTPUT_COMMENTS := true;
  OUTPUT_HEADER := true;
  OUTPUT_LINE_NUMBERS := false;
  SHOW_EDITOR := true;
  MODAL := true;
  USE_TLO := true;
  OUTPUT_DOUBLES := false;
  UNITS := "G21";
  UNIT_SPEED_FORMAT := "mm/min";
  UNIT_FORMAT := "mm";
  PRECISION := PyInt 3;
  PREAMBLE := "G17 G54 G40 G49 G80 G90" +:+ LF;
  POSTAMBLE := "M05" +:+ LF +:+ "G53 G0 Z0.000" +:+ LF
               +:+ "G53 G0 X-350.000 Y0.000" +:+ LF +:+ "M30" +:+ LF;
  PRE_OPERATION := "";
  POST_OPERATION := "";
  TOOL_CHANGE := ""
|}.

Record state : Set := {
  LINENR : Z;
  tapSpeed : Z
}.

Definition initial_state : state := {| LINENR := 5; tapSpeed := 0 |}.

Definition set_tapSpeed (n : Z) (st : state) : state :=
  {| LINENR := LINENR st; tapSpeed := n |}.

(** ** processArguments *)

Definition apply_args (args : Namespace) (g : settings) : settings := {|
  OUTPUT_HEADER := if no_header args then false else OUTPUT_HEADER g;
  OUTPUT_COMMENTS := if no_comments args then false else OUTPUT_COMMENTS g;
  OUTPUT_LINE_NUMBERS :=
    if line_numbers args then true else OUTPUT_LINE_NUMBERS g;
  SHOW_EDITOR := if no_show_editor args then false else SHOW_EDITOR g;
  PRECISION := if inches args then PyInt 4 else PyStr (precision args);
  PREAMBLE := match preamble args with Some t => t | None => PREAMBLE g end;
  POSTAMBLE := match postamble args with Some t => t | None => POSTAMBLE g end;
  UNITS := if inches args then "G20" else UNITS g;
  UNIT_SPEED_FORMAT := if inches args then "in/min" else UNIT_SPEED_FORMAT g;
  UNIT_FORMAT := if inches args then "in" else UNIT_FORMAT g;
  MODAL := if no_modal args then false else MODAL g;
  USE_TLO := if no_tlo args then false else USE_TLO g;
  OUTPUT_DOUBLES := if no_axis_modal args then true else OUTPUT_DOUBLES g;
  PRE_OPERATION := PRE_OPERATION g;
  POST_OPERATION := POST_OPERATION g;
  TOOL_CHANGE := TOOL_CHANGE g
|}.

(** The body of the [try] is the call of the parser followed by assignments
    that cannot raise, so the handler sees what the parser raised; it
    catches [Exception] and lets anything else through. *)
Definition processArguments `{Host} (argstring : string) (g : settings)
  : result (bool * settings) :=
  match parse_args argstring with
  | Parsed args => Ok (true, apply_args args g)
  | ParseRaises e => if is_Exception e then Ok (false, g) else Raise e
  end.

(** ** linenumber *)

Definition linenumber (g : settings) (st : state) : string * state :=
  if OUTPUT_LINE_NUMBERS g then
    let st' := {| LINENR := LINENR st + 5; tapSpeed := tapSpeed st |} in
    ("N" +:+ str_Z (LINENR st') +:+ " ", st')
  else ("", st).

(** ** The tool-path objects *)

Section Translator.
Context `{NumLib}.

(** [Path.Command]: a name and a dictionary from parameter letter to value. *)
Record command : Type := {
  Name : string;
  Parameters : gmap string num
}.

(** The object an operation refers to as [obj.Base], with the two
    attributes the driver probes on it. *)
Record base_object : Set := {
  base_Active : option bool;
  base_CoolantMode : option string
}.

(** A document object.  An attribute the code probes with [hasattr] is an
    option; [Name] and [Label] exist on every document object.  [obj_Path]
    holds the commands of [PathUtils.getPathWithPlacement(obj)], [obj_Tool]
    is [Tool.ShapeName] and [obj_ToolController] is
    [ToolController.Tool.ToolType]. *)
#[warnings="-register-all"] Inductive pathobj : Type := PathObj {
  obj_Name : string;
  obj_Label : string;
  obj_Active : option bool;
  obj_Base : option base_object;
  obj_CoolantMode : option string;
  obj_CycleTime : option string;
  obj_Group : option (list pathobj);
  obj_Path : option (list command);
  obj_Tool : option string;
  obj_SpindleSpeed : option num;
  obj_ToolController : option string
}.

(** [obj.Active = a], or the attribute removed *)
Definition set_Active (a : option bool) (o : pathobj) : pathobj :=
  {| obj_Name := obj_Name o; obj_Label := obj_Label o; obj_Active := a;
     obj_Base := obj_Base o; obj_CoolantMode := obj_CoolantMode o;
     obj_CycleTime := obj_CycleTime o; obj_Group := obj_Group o;
     obj_Path := obj_Path o; obj_Tool := obj_Tool o;
     obj_SpindleSpeed := obj_SpindleSpeed o;
     obj_ToolController := obj_ToolController o |}.

(** ** The text accumulated by [parse]

    [out] starts as a string; the message branch rebinds it to a list, on
    which [+=] appends the characters of the right operand one by one and
    which has no [strip]. *)
Inductive outbuf : Set :=
| OStr (s : string)
| OList (items : list string).

Definition chars (s : string) : list string :=
  map (fun c => String c EmptyString) (list_ascii_of_string s).

(** [out += s] *)
Definition out_add (o : outbuf) (s : string) : outbuf :=
  match o with
  | OStr t => OStr (t +:+ s)
  | OList l => OList (l ++ chars s)
  end.

(** [out = out.strip() + "\n"] then [out = out.replace("  ", " ")] *)
Definition finish_line (o : outbuf) : result outbuf :=
  match o with
  | OStr t => Ok (OStr (replace_double_space (strip t +:+ LF)))
  | OList _ => Raise AttributeError
  end.

(** [text += r] where [text] is a string and [r] is what [parse] returned *)
Definition str_add (text : string) (r : outbuf) : result string :=
  match r with
  | OStr t => Ok (text +:+ t)
  | OList _ => Raise TypeError
  end.

(** The variables local to one call of [parse]. *)
Record local : Type := {
  out : outbuf;
  lastcommand : option string;
  currLocation : gmap string num
}.

Definition set_out (o : outbuf) (l : local) : local :=
  {| out := o; lastcommand := lastcommand l; currLocation := currLocation l |}.

(** [d.update(new)] *)
Definition update (new old : gmap string num) : gmap string num := new ∪ old.

Definition params : list string :=
  ["X"; "Y"; "Z"; "A"; "B"; "C"; "I"; "J"; "F"; "S"; "T"; "Q"; "R"; "L"; "H";
   "D"; "P"].

(** [firstmove.Parameters] *)
Definition firstmove : gmap string num :=
  <["X" := num_minus_one]> (<["Y" := num_minus_one]>
    (<["Z" := num_minus_one]> (<["F" := num_zero]> ∅))).

Definition initial_local : local :=
  {| out := OStr ""; lastcommand := None;
     currLocation := update firstmove ∅ |}.

Definition precision_string (g : settings) : string :=
  "." +:+ str (PRECISION g) +:+ "f".

(** [(not OUTPUT_DOUBLES) and (param in currLocation) and
     (currLocation[param] == c.Parameters[param])] *)
Definition unchanged (g : settings) (cur : gmap string num) (param : string)
    (v : num) : bool :=
  negb (OUTPUT_DOUBLES g) &&
  match cur !! param with Some old => num_eqb old v | None => false end.

Definition length_word (g : settings) (v : num) : result string :=
  length_as (UNIT_FORMAT g) (precision_string g) v.

(** The loops of the tap rewrite over a few letters: each letter present
    on the command appends a blank, the letter and the converted value to
    [paramstring]; with [suppress] the unchanged ones are skipped. *)
Fixpoint tap_words (g : settings) (suppress : bool) (cur : gmap string num)
    (c : command) (letters : list string) (paramstring : string)
  : result string :=
  match letters with
  | [] => Ok paramstring
  | param :: rest =>
      match Parameters c !! param with
      | None => tap_words g suppress cur c rest paramstring
      | Some v =>
          if suppress && unchanged g cur param v then
            tap_words g suppress cur c rest paramstring
          else
            w ← length_word g v;
            tap_words g suppress cur c rest
              (paramstring +:+ " " +:+ param +:+ w)
      end
  end.

(** [param + str(int(c.Parameters[param]))] *)
Definition int_word (param : string) (v : num) : result (option string) :=
  n ← num_int v; Ok (Some (param +:+ str_Z n)).

(** One round of the loop [for param in params]: the word appended to
    [outstring] for [param], if any. *)
Definition param_word (g : settings) (cur : gmap string num) (c : command)
    (param : string) : result (option string) :=
  match Parameters c !! param with
  | None => Ok None
  | Some v =>
      feed ← (if String.eqb param "F" then
                match cur !! param with
                | None => Raise KeyError
                | Some old => Ok (negb (num_eqb old v) || OUTPUT_DOUBLES g)
                end
              else Ok false);
      if feed : bool then
        if String.eqb (Name c) "G0" || String.eqb (Name c) "G00" then Ok None
        else if velocity_positive (UNIT_SPEED_FORMAT g) v then
          w ← velocity_as (UNIT_SPEED_FORMAT g) (precision_string g) v;
          Ok (Some (param +:+ w))
        else Ok None
      else if String.eqb param "T" then int_word param v
      else if String.eqb param "H" then int_word param v
      else if String.eqb param "I" then int_word param v
      else if String.eqb param "J" then int_word param v
      else if String.eqb param "D" then int_word param v
      else if String.eqb param "S" then int_word param v
      else if unchanged g cur param v then Ok None
      else w ← length_word g v; Ok (Some (param +:+ w))
  end.

Fixpoint param_words (g : settings) (cur : gmap string num) (c : command)
    (letters : list string) : result (list string) :=
  match letters with
  | [] => Ok []
  | param :: rest =>
      w ← param_word g cur c param;
      ws ← param_words g cur c rest;
      Ok (match w with Some t => t :: ws | None => ws end)
  end.

(** [for line in lines: acc += linenumber() + line], for an accumulator
    that is the string [gcode] or the buffer [out] *)
Fixpoint add_numbered {A : Type} (add : A -> string -> A) (g : settings)
    (lines : list string) (acc : A) (st : state) : A * state :=
  match lines with
  | [] => (acc, st)
  | line :: rest =>
      let '(n, st1) := linenumber g st in
      add_numbered add g rest (add acc (n +:+ line)) st1
  end.

(** [pathobj.Tool.ShapeName == "tap"], read when a spindle start is met *)
Definition is_tap_shape (o : pathobj) : result bool :=
  match obj_Tool o with
  | None => Raise AttributeError
  | Some shape => Ok (String.eqb shape "tap")
  end.

(** [hasattr(pathobj, "ToolController") and
     pathobj.ToolController.Tool.ToolType == "Tap"] *)
Definition is_tap_tool (o : pathobj) : bool :=
  match obj_ToolController o with
  | Some t => String.eqb t "Tap"
  | None => false
  end.

(** The body of [if command == "G81" or command == "G83"] for a tap. *)
Definition tap_rewrite (g : settings) (c : command) (l : local) (st : state)
  : result (local * state) :=
  let cur := currLocation l in
  let '(n1, st) := linenumber g st in
  let o := out_add (out l) (n1 +:+ "G95" +:+ LF) in
  paramstring ← tap_words g true cur c ["X"; "Y"] "";
  let '(o, st) :=
    if String.eqb paramstring "" then (o, st)
    else let '(n2, st) := linenumber g st in
         (out_add o (n2 +:+ "G00" +:+ paramstring +:+ LF), st) in
  st ← match Parameters c !! "S" with
       | Some s => n ← num_int s; Ok (set_tapSpeed n st)
       | None => Ok st
       end;
  let o := out_add o ("M29 S" +:+ str_Z (tapSpeed st) +:+ LF) in
  paramstring ← tap_words g true cur c ["Z"; "R"] paramstring;
  paramstring ← tap_words g false cur c ["F"; "P"; "Q"] paramstring;
  let '(n3, st) := linenumber g st in
  let o := out_add o (n3 +:+ "G84" +:+ paramstring +:+ LF) in
  let '(n4, st) := linenumber g st in
  let o := out_add o (n4 +:+ "G80" +:+ LF) in
  let '(n5, st) := linenumber g st in
  let o := out_add o (n5 +:+ "G94" +:+ LF) in
  Ok (set_out o l, st).

(** The body of [if command == "M6"]. *)
Definition tool_change (g : settings) (c : command) (l : local) (st : state)
  : result (local * state) :=
  let '(n1, st) := linenumber g st in
  let o := out_add (out l) (n1 +:+ "M5" +:+ LF) in
  let '(o, st) :=
    add_numbered out_add g (splitlines true (TOOL_CHANGE g)) o st in
  let '(n2, st) := linenumber g st in
  match Parameters c !! "T" with
  | None => Raise KeyError
  | Some t =>
      n ← num_int t;
      let o := out_add o (n2 +:+ "M6 T" +:+ str_Z n +:+ LF) in
      if USE_TLO g then
        let '(n3, st) := linenumber g st in
        Ok (set_out (out_add o (n3 +:+ "G43 H" +:+ str_Z n +:+ LF)) l, st)
      else Ok (set_out o l, st)
  end.

(** [outstring.pop(0)] *)
Definition pop0 (outstring : list string) : result (list string) :=
  match outstring with
  | [] => Raise IndexError
  | _ :: rest => Ok rest
  end.

(** The last block of the loop body: number the line, append its words
    in upper case and close it. *)
Definition emit_line (g : settings) (outstring : list string) (o : outbuf)
    (st : state) : result (outbuf * state) :=
  match outstring with
  | [] => Ok (o, st)
  | w0 :: _ =>
      '(outstring, st) ←
        (if OUTPUT_LINE_NUMBERS g then
           c0 ← first_char w0;
           if Ascii.eqb c0 paren then Ok (outstring, st)
           else let '(n, st) := linenumber g st in Ok (n :: outstring, st)
         else Ok (outstring, st));
      let o := fold_left (fun o w => out_add o (upper w +:+ COMMAND_SPACE))
                 outstring o in
      o ← finish_line o;
      Ok (o, st)
  end.

(** One round of [for index, c in enumerate(commands)]; [nextcommand] is
    the name of the following command, or the empty string. *)
Definition parse_command (g : settings) (pathobj : pathobj)
    (nextcommand : string) (c : command) (l : local) (st : state)
  : result (local * state) :=
  let command := Name c in
  if String.eqb (obj_Label pathobj) "Fixture" && String.eqb command "G0" then
    Ok (l, st)
  else
  tap ← (if String.eqb command "M03" || String.eqb command "M3"
         then is_tap_shape pathobj else Ok false);
  if tap : bool then
    match obj_SpindleSpeed pathobj with
    | None => Raise AttributeError
    | Some s => n ← num_int s; Ok (l, set_tapSpeed n st)
    end
  else
  if (String.eqb command "G81" || String.eqb command "G83")
     && is_tap_tool pathobj then tap_rewrite g c l st
  else
  let outstring := [command] in
  outstring ← (if MODAL g && bool_decide (Some command = lastcommand l)
               then pop0 outstring else Ok outstring);
  if String.eqb command "G80"
     && bool_decide (lastcommand l = Some nextcommand) then Ok (l, st)
  else
  c0 ← first_char (Name c);
  if Ascii.eqb c0 paren && negb (OUTPUT_COMMENTS g) then Ok (l, st)
  else
  words ← param_words g (currLocation l) c params;
  let outstring := (outstring ++ words)%list in
  let l := {| out := out l; lastcommand := Some command;
              currLocation := update (Parameters c) (currLocation l) |} in
  if String.eqb command "M6" then tool_change g c l st
  else
  '(o, outstring) ←
    (if String.eqb command "message" then
       if negb (OUTPUT_COMMENTS g) then Ok (OList [], outstring)
       else outstring ← pop0 outstring; Ok (out l, outstring)
     else Ok (out l, outstring));
  '(o, st) ← emit_line g outstring o st;
  Ok (set_out o l, st).

Fixpoint parse_commands (g : settings) (pathobj : pathobj)
    (commands : list command) (l : local) (st : state)
  : result (local * state) :=
  match commands with
  | [] => Ok (l, st)
  | c :: rest =>
      let nextcommand := match rest with [] => "" | c' :: _ => Name c' end in
      '(l, st) ← parse_command g pathobj nextcommand c l st;
      parse_commands g pathobj rest l st
  end.

(** [parse(pathobj)].  The names adaptiveOp, opHorizRapid and
    opVertRapid are assigned in the source and never read; they are left
    out. *)
Fixpoint parse (g : settings) (pathobj : pathobj) (st : state)
  : result (outbuf * state) :=
  match pathobj with
  | PathObj _ _ _ _ _ _ group path _ _ _ =>
      match group with
      | Some ps =>
          (fix children (ps : list Translator.pathobj) (text : string)
               (st : state) : result (outbuf * state) :=
             match ps with
             | [] => Ok (OStr text, st)
             | p :: ps' =>
                 '(r, st) ← parse g p st;
                 text ← str_add text r;
                 children ps' text st
             end) ps "" st
      | None =>
          match path with
          | None => Ok (OStr "", st)
          | Some commands =>
              '(l, st) ← parse_commands g pathobj commands initial_local st;
              Ok (out l, st)
          end
      end
  end.

End Translator.

(** ** export *)

Section Driver.
Context `{NumLib} `{Host}.

(** [hasattr(obj, "Path")] *)
Definition has_Path (obj : pathobj) : bool :=
  match obj_Path obj with Some _ => true | None => false end.

(** The two tests under "Skip inactive operations". *)
Definition inactive (obj : pathobj) : bool :=
  match obj_Active obj with
  | Some false => true
  | _ =>
      match obj_Base obj with
      | Some b =>
          match base_Active b with Some false => true | _ => false end
      | None => false
      end
  end.

(** The coolant mode: the object's own, else its base's, else "None". *)
Definition coolant_mode (obj : pathobj) : string :=
  match obj_CoolantMode obj with
  | Some m => m
  | None =>
      match obj_Base obj with
      | Some b =>
          match base_CoolantMode b with Some m => m | None => "None" end
      | None => "None"
      end
  end.

(** The body of the loop [for obj in objectslist] for an operation that
    is not skipped. *)
Definition export_operation (g : settings) (obj : pathobj) (gcode : string)
    (st : state) : result (string * state) :=
  let gcode :=
    if OUTPUT_COMMENTS g then
      let gcode :=
        gcode +:+ "(BEGIN OPERATION: " +:+ upper (obj_Label obj) +:+ ")"
        +:+ LF in
      match obj_CycleTime obj with
      | Some t => gcode +:+ "(CYCLE TIME: " +:+ t +:+ ")" +:+ LF
      | None => gcode
      end
    else gcode in
  let '(gcode, st) :=
    add_numbered String.append g (splitlines true (PRE_OPERATION g)) gcode
      st in
  let coolantMode := coolant_mode obj in
  let gcode :=
    if OUTPUT_COMMENTS g && negb (String.eqb coolantMode "None") then
      gcode +:+ "(COOLANT ON:" +:+ upper coolantMode +:+ ")" +:+ LF
    else gcode in
  let '(gcode, st) :=
    if String.eqb coolantMode "Flood" then
      let '(n, st) := linenumber g st in (gcode +:+ n +:+ "M8" +:+ LF, st)
    else (gcode, st) in
  let '(gcode, st) :=
    if String.eqb coolantMode "Mist" then
      let '(n, st) := linenumber g st in (gcode +:+ n +:+ "M7" +:+ LF, st)
    else (gcode, st) in
  '(r, st) ← parse g obj st;
  gcode ← str_add gcode r;
  let gcode :=
    if OUTPUT_COMMENTS g then
      gcode +:+ "(FINISH OPERATION: " +:+ upper (obj_Label obj) +:+ ")" +:+ LF
    else gcode in
  let '(gcode, st) :=
    add_numbered String.append g (splitlines true (POST_OPERATION g)) gcode
      st in
  if negb (String.eqb coolantMode "None") then
    let gcode :=
      if OUTPUT_COMMENTS g then
        gcode +:+ "(COOLANT OFF:" +:+ upper coolantMode +:+ ")" +:+ LF
      else gcode in
    let '(n, st) := linenumber g st in
    Ok (gcode +:+ n +:+ "M9" +:+ LF, st)
  else Ok (gcode, st).

(** [for obj in objectslist: ...] *)
Fixpoint export_objects (g : settings) (objectslist : list pathobj)
    (gcode : string) (st : state) : result (string * state) :=
  match objectslist with
  | [] => Ok (gcode, st)
  | obj :: rest =>
      if inactive obj then export_objects g rest gcode st
      else
        '(gcode, st) ← export_operation g obj gcode st;
        export_objects g rest gcode st
  end.

Definition header (g : settings) : string :=
  if OUTPUT_HEADER g then
    "%" +:+ LF +:+ "O" +:+ LF +:+ "(EXPORTED BY FREECAD!)" +:+ LF
    +:+ "(POST PROCESSOR: " +:+ MACHINE_NAME +:+ ")" +:+ LF
    +:+ "(OUTPUT TIME: " +:+ upper now_str +:+ ")" +:+ LF
  else "".

(** [export(objectslist, filename, argstring)], called with the settings
    [g0] and the state [st0] the module holds.  The result is what the
    call returns, [None] included, with the settings and the state it
    leaves behind.  The text is also written to [filename] unless that is
    "-"; the file is outside the model. *)
Definition export (g0 : settings) (st0 : state) (objectslist : list pathobj)
    (filename argstring : string)
  : result (option string * settings * state) :=
  '(ok, g) ← processArguments argstring g0;
  if negb ok then Ok (None, g, st0)
  else if negb (forallb has_Path objectslist) then Ok (None, g, st0)
  else
    let gcode := header g in
    let gcode :=
      if OUTPUT_COMMENTS g then gcode +:+ "(BEGIN PREAMBLE)" +:+ LF
      else gcode in
    let '(gcode, st) :=
      add_numbered String.append g
        (map (fun line => line +:+ LF) (splitlines false (PREAMBLE g)))
        gcode st0 in
    let '(n, st) := linenumber g st in
    let gcode := gcode +:+ n +:+ UNITS g +:+ LF in
    match objectslist with
    | [] => Raise IndexError
    | _ :: _ =>
        '(gcode, st) ← export_objects g objectslist gcode st;
        let gcode :=
          if OUTPUT_COMMENTS g then gcode +:+ "(BEGIN POSTAMBLE)" +:+ LF
          else gcode in
        let '(gcode, st) :=
          add_numbered String.append g (splitlines true (POSTAMBLE g))
            gcode st in
        let gcode := gcode +:+ "%" +:+ LF in
        let final :=
          if GuiUp && SHOW_EDITOR g then editor gcode else gcode in
        Ok (Some final, g, st)
    end.

End Driver.

(** ** Reference libraries

    Executable stand-ins for the two interfaces, used to run the embedding
    on concrete inputs.  Every theorem below that is stated for an arbitrary
    [NumLib] and [Host] holds for the real libraries as well. *)

Module Reference.

(** *** Numbers: exact rationals

    A float is represented by the rational it denotes; a length is in mm and
    a velocity in mm/s, FreeCAD's internal units.  Conversions are exact and
    ["{:.Nf}"] rounds the exact value half to even. *)

Definition is_digit (c : ascii) : bool :=
  let n := nat_of_ascii c in ((48 <=? n) && (n <=? 57))%nat.

Fixpoint spec_digits (s : string) (acc : nat) : option nat :=
  match s with
  | EmptyString => None
  | String c EmptyString => if Ascii.eqb c "f" then Some acc else None
  | String c r =>
      if is_digit c then spec_digits r (10 * acc + (nat_of_ascii c - 48))%nat
      else None
  end.

(** The format specs [".Nf"]; any other spec is refused. *)
Definition spec_precision (spec : string) : option nat :=
  match spec with
  | String "." (String c r) =>
      if is_digit c then spec_digits (String c r) 0 else None
  | _ => None
  end.

Fixpoint zeros (n : nat) : string :=
  match n with O => "" | S k => "0" +:+ zeros k end.

Definition zero_pad (width : nat) (s : string) : string :=
  zeros (width - String.length s) +:+ s.

Definition format_fixed (p : nat) (q : Q) : string :=
  let scale := 10 ^ Z.of_nat p in
  let n := Qnum q * scale in
  let d := Zpos (Qden q) in
  let a := Z.abs n in
  let fl := a / d in
  let r := a mod d in
  let rounded :=
    if (2 * r <? d)%Z then fl
    else if (d <? 2 * r)%Z then fl + 1
    else if Z.even fl then fl else fl + 1 in
  (if (n <? 0)%Z then "-" else "")
  +:+ str_Z (rounded / scale)
  +:+ match p with
      | O => ""
      | _ => "." +:+ zero_pad p (str_Z (rounded mod scale))
      end.

Definition format_float (spec : string) (q : Q) : result string :=
  match spec_precision spec with
  | Some p => Ok (format_fixed p q)
  | None => Raise ValueError
  end.

Definition exact_length_as (unit spec : string) (q : Q) : result string :=
  if String.eqb unit "mm" then format_float spec q
  else if String.eqb unit "in" then format_float spec (q * (5 # 127))
  else Raise ValueError.

Definition exact_velocity_as (unit spec : string) (q : Q) : result string :=
  if String.eqb unit "mm/min" then format_float spec (q * (60 # 1))
  else if String.eqb unit "in/min" then format_float spec (q * (300 # 127))
  else Raise ValueError.

#[export] Instance exact_numbers : NumLib := {|
  num := Q;
  num_eqb := Qeq_bool;
  num_int := fun q => Ok (Z.quot (Qnum q) (Zpos (Qden q)));
  num_minus_one := (-1) # 1;
  num_zero := 0 # 1;
  length_as := exact_length_as;
  velocity_positive := fun _ q => (0 <? Qnum q)%Z;
  velocity_as := exact_velocity_as
|}.

(** *** Option strings

    [shlex.split] in its default POSIX mode, then the parser of the module
    for option names written in full or abbreviated to an unambiguous
    prefix, with [--name value] and [--name=value].  argparse reports a
    failure through [parser.error], which exits. *)

Definition dquote : ascii := ascii_of_nat 34.
Definition squote : ascii := ascii_of_nat 39.
Definition backslash : ascii := ascii_of_nat 92.

Definition shlex_blank (c : ascii) : bool :=
  let n := nat_of_ascii c in
  ((n =? 32) || (n =? 9) || (n =? 13) || (n =? 10))%nat.

Inductive shlex_state : Set :=
| Between
| InWord
| InQuote (q : ascii)
| Escaped (back : option ascii).

Fixpoint shlex_scan (s : string) (state : shlex_state) (token : string)
    (quoted : bool) : result (list string) :=
  match s with
  | EmptyString =>
      match state with
      | Between => Ok []
      | InWord =>
          Ok (if negb (String.eqb token "") || quoted then [token] else [])
      | InQuote _ | Escaped _ => Raise ValueError
      end
  | String c r =>
      match state with
      | Between =>
          if shlex_blank c then shlex_scan r Between "" false
          else if Ascii.eqb c backslash then
            shlex_scan r (Escaped None) "" false
          else if Ascii.eqb c dquote || Ascii.eqb c squote then
            shlex_scan r (InQuote c) "" true
          else shlex_scan r InWord (String c EmptyString) false
      | InWord =>
          if shlex_blank c then
            if negb (String.eqb token "") || quoted then
              ts ← shlex_scan r Between "" false; Ok (token :: ts)
            else shlex_scan r Between "" false
          else if Ascii.eqb c dquote || Ascii.eqb c squote then
            shlex_scan r (InQuote c) token true
          else if Ascii.eqb c backslash then
            shlex_scan r (Escaped None) token quoted
          else shlex_scan r InWord (snoc token c) quoted
      | InQuote q =>
          if Ascii.eqb c q then shlex_scan r InWord token true
          else if Ascii.eqb c backslash && Ascii.eqb q dquote then
            shlex_scan r (Escaped (Some q)) token true
          else shlex_scan r (InQuote q) (snoc token c) true
      | Escaped back =>
          match back with
          | Some q =>
              let token :=
                if negb (Ascii.eqb c backslash) && negb (Ascii.eqb c q)
                then snoc token backslash else token in
              shlex_scan r (InQuote q) (snoc token c) quoted
          | None => shlex_scan r InWord (snoc token c) quoted
          end
      end
  end.

Definition shlex_split (s : string) : result (list string) :=
  shlex_scan s Between "" false.

Inductive option_name : Set :=
| Ono_header | Ono_comments | Oline_numbers | Ono_show_editor | Oprecision
| Opreamble | Opostamble | Oinches | Ono_modal | Ono_axis_modal | Ono_tlo.

Definition option_strings : list (string * option_name) :=
  [("--no-header", Ono_header); ("--no-comments", Ono_comments);
   ("--line-numbers", Oline_numbers); ("--no-show-editor", Ono_show_editor);
   ("--precision", Oprecision); ("--preamble", Opreamble);
   ("--postamble", Opostamble); ("--inches", Oinches);
   ("--no-modal", Ono_modal); ("--no-axis-modal", Ono_axis_modal);
   ("--no-tlo", Ono_tlo)].

Definition takes_value (o : option_name) : bool :=
  match o with Oprecision | Opreamble | Opostamble => true | _ => false end.

Definition defaults : Namespace := {|
  no_header := false; no_comments := false; line_numbers := false;
  no_show_editor := false; precision := "3"; preamble := None;
  postamble := None; inches := false; no_modal := false;
  no_axis_modal := false; no_tlo := false
|}.

Definition store (o : option_name) (value : string) (a : Namespace)
  : Namespace :=
  {| no_header := match o with Ono_header => true | _ => no_header a end;
     no_comments := match o with Ono_comments => true | _ => no_comments a end;
     line_numbers :=
       match o with Oline_numbers => true | _ => line_numbers a end;
     no_show_editor :=
       match o with Ono_show_editor => true | _ => no_show_editor a end;
     precision := match o with Oprecision => value | _ => precision a end;
     preamble := match o with Opreamble => Some value | _ => preamble a end;
     postamble :=
       match o with Opostamble => Some value | _ => postamble a end;
     inches := match o with Oinches => true | _ => inches a end;
     no_modal := match o with Ono_modal => true | _ => no_modal a end;
     no_axis_modal :=
       match o with Ono_axis_modal => true | _ => no_axis_modal a end;
     no_tlo := match o with Ono_tlo => true | _ => no_tlo a end |}.

(** The option a word names: the one spelled so, else the only one it is a
    prefix of. *)
Definition resolve (word : string) : option option_name :=
  match List.filter (fun e => String.eqb (fst e) word) option_strings with
  | e :: _ => Some (snd e)
  | [] =>
      match List.filter (fun e => String.prefix word (fst e)) option_strings
      with
      | [e] => Some (snd e)
      | _ => None
      end
  end.

(** Splits [--name=value] at the first equals sign. *)
Fixpoint split_equals (s : string) (name : string) : string * option string :=
  match s with
  | EmptyString => (name, None)
  | String c r =>
      if Ascii.eqb c "=" then (name, Some r) else split_equals r (snoc name c)
  end.

Definition dash : ascii := "-"%char.

(** Whether some option is spelled [name] or begins with it. *)
Definition names_an_option (name : string) : bool :=
  existsb (fun e => String.prefix name (fst e)) option_strings.

(** [-N] or [-N.M] *)
Fixpoint is_number_tail (digits_seen : bool) (dot_seen : bool) (s : string)
  : bool :=
  match s with
  | EmptyString => digits_seen
  | String c r =>
      if is_digit c then is_number_tail true dot_seen r
      else if Ascii.eqb c "." && negb dot_seen then is_number_tail false true r
      else false
  end.

(** A word that argparse reads as the argument of the option before it:
    one that does not look like an option. *)
Definition is_argument (word : string) : bool :=
  match word with
  | String c (String _ _ as r) =>
      negb (Ascii.eqb c dash)
      || (negb (names_an_option (fst (split_equals word "")))
          && (is_number_tail false false r
              || existsb (fun d => Ascii.eqb d " ")
                   (list_ascii_of_string word)))
  | _ => true
  end.

Fixpoint parse_words (words : list string) (a : Namespace) : parse_result :=
  match words with
  | [] => Parsed a
  | word :: rest =>
      match word with
      | String "-" (String "-" (String _ _)) =>
          let '(name, explicit) := split_equals word "" in
          match resolve name with
          | None => ParseRaises SystemExit
          | Some o =>
              if takes_value o then
                match explicit, rest with
                | Some v, _ => parse_words rest (store o v a)
                | None, v :: rest' =>
                    if is_argument v then parse_words rest' (store o v a)
                    else ParseRaises SystemExit
                | None, [] => ParseRaises SystemExit
                end
              else
                match explicit with
                | Some _ => ParseRaises SystemExit
                | None => parse_words rest (store o "" a)
                end
          end
      | _ => ParseRaises SystemExit
      end
  end.

Definition reference_parse_args (argstring : string) : parse_result :=
  match shlex_split argstring with
  | Raise e => ParseRaises e
  | Ok words => parse_words words defaults
  end.

(** A host without a display, so that no dialog is shown. *)
#[export] Instance headless : Host := {|
  parse_args := reference_parse_args;
  now_str := "2024-01-01 00:00:00.000000";
  GuiUp := false;
  editor := fun text => text
|}.

End Reference.

(** ** Building inputs *)

Module Build.
Import Reference.

(** [Path.Command(name, {letter: value, ...})] *)
Definition cmd (name : string) (ps : list (string * Q)) : command :=
  {| Name := name; Parameters := list_to_map ps |}.

(** An operation whose only attributes are [Name], [Label] and [Path]. *)
Definition operation (name : string) (path : list command) : pathobj :=
  {| obj_Name := name; obj_Label := name; obj_Active := None;
     obj_Base := None; obj_CoolantMode := None; obj_CycleTime := None;
     obj_Group := None; obj_Path := Some path; obj_Tool := None;
     obj_SpindleSpeed := None; obj_ToolController := None |}.

(** A tapping operation: a tool whose shape is "tap" and whose controller's
    tool type is "Tap", with the spindle speed of the operation. *)
Definition tapping (name : string) (speed : Q) (path : list command)
  : pathobj :=
  {| obj_Name := name; obj_Label := name; obj_Active := None;
     obj_Base := None; obj_CoolantMode := None; obj_CycleTime := None;
     obj_Group := None; obj_Path := Some path; obj_Tool := Some "tap";
     obj_SpindleSpeed := Some speed; obj_ToolController := Some "Tap" |}.

Definition with_Active (b : bool) (o : pathobj) : pathobj :=
  set_Active (Some b) o.

(** A compound: the children under [Group], and a [Path] of its own as
    every document object handed to [export] must have. *)
Definition compound (name : string) (children : list pathobj) : pathobj :=
  {| obj_Name := name; obj_Label := name; obj_Active := None;
     obj_Base := None; obj_CoolantMode := None; obj_CycleTime := None;
     obj_Group := Some children; obj_Path := Some []; obj_Tool := None;
     obj_SpindleSpeed := None; obj_ToolController := None |}.

End Build.

(** * The vocabulary of the statements *)

(** The text of a few lines, each closed by a line feed. *)
Definition text_of_lines (lines : list string) : string :=
  fold_right (fun line s => line +:+ LF +:+ s) "" lines.

(** What the caller of [export] receives. *)
Definition returned {A B C : Type} (r : result (A * B * C)) : result A :=
  (fun '(x, _, _) => x) <$> r.

(** The prefix of the [k]-th numbered line after the state [st], and the
    state once [k] lines were numbered. *)
Definition number_after (g : settings) (st : state) (k : Z) : string :=
  if OUTPUT_LINE_NUMBERS g then "N" +:+ str_Z (LINENR st + 5 * k) +:+ " "
  else "".

Definition advance (g : settings) (st : state) (k : Z) : state :=
  if OUTPUT_LINE_NUMBERS g then
    {| LINENR := LINENR st + 5 * k; tapSpeed := tapSpeed st |}
  else st.

(** The counter never goes back between two states, and stays where it
    is when line numbering is off. *)
Definition counter_kept (g : settings) (st st' : state) : Prop :=
  LINENR st <= LINENR st'
  /\ (OUTPUT_LINE_NUMBERS g = false -> LINENR st' = LINENR st).

Section TranslatorVocabulary.
Context `{NumLib}.

(** What a round of the loop shows to the rest of the run: the text and
    the module state. *)
Definition visible (r : result (local * state)) : result (outbuf * state) :=
  (fun '(l, st) => (out l, st)) <$> r.

(** [fmt] is how the numeric library writes the lengths of the letters
    [letters] of [c]: in the active length unit, with the active number of
    digits. *)
Definition writes_lengths (g : settings) (fmt : num -> string) (c : command)
    (letters : list string) : Prop :=
  forall param v,
    In param letters -> Parameters c !! param = Some v ->
    length_as (UNIT_FORMAT g) ("." +:+ str (PRECISION g) +:+ "f") v
    = Ok (fmt v).

(** What one letter adds to the parameter string of the tap rewrite when
    lengths are written as [fmt] says: a blank, the letter and the converted
    value; nothing when the letter is absent; and, for a letter under
    duplicate-axis suppression, nothing when repeated axis words are off and
    the current location holds an equal value. *)
Definition tap_piece (g : settings) (fmt : num -> string) (suppress : bool)
    (cur : gmap string num) (c : command) (param : string) : string :=
  match Parameters c !! param with
  | Some v =>
      if suppress
         && (negb (OUTPUT_DOUBLES g)
             && match cur !! param with
                | Some old => num_eqb old v
                | None => false
                end)
      then ""
      else " " +:+ param +:+ fmt v
  | None => ""
  end.

Definition tap_pieces (g : settings) (fmt : num -> string) (suppress : bool)
    (cur : gmap string num) (c : command) (letters : list string) : string :=
  fold_right (fun param s => tap_piece g fmt suppress cur c param +:+ s) ""
    letters.





(** The object with the Active attribute removed from it, from its base
    and from everything below it in [Group]. *)
Fixpoint without_Active (o : pathobj) : pathobj :=
  match o with
  | PathObj name label _ base coolant cycle group path tool speed
      controller =>
      PathObj name label None
        match base with
        | Some b =>
            Some {| base_Active := None;
                    base_CoolantMode := base_CoolantMode b |}
        | None => None
        end
        coolant cycle
        match group with
        | Some ps => Some (map without_Active ps)
        | None => None
        end
        path tool speed controller
  end.


End TranslatorVocabulary.

Section DriverVocabulary.
Context `{NumLib} `{Host}.

(** [export] after the options were processed and accepted. *)
Definition generate (g : settings) (st0 : state) (objectslist : list pathobj)
  : result (option string * settings * state) :=
  if negb (forallb has_Path objectslist) then Ok (None, g, st0)
  else
    let gcode := header g in
    let gcode :=
      if OUTPUT_COMMENTS g then gcode +:+ "(BEGIN PREAMBLE)" +:+ LF
      else gcode in
    let '(gcode, st) :=
      add_numbered String.append g
        (map (fun line => line +:+ LF) (splitlines false (PREAMBLE g)))
        gcode st0 in
    let '(n, st) := linenumber g st in
    let gcode := gcode +:+ n +:+ UNITS g +:+ LF in
    match objectslist with
    | [] => Raise IndexError
    | _ :: _ =>
        '(gcode, st) ← export_objects g objectslist gcode st;
        let gcode :=
          if OUTPUT_COMMENTS g then gcode +:+ "(BEGIN POSTAMBLE)" +:+ LF
          else gcode in
        let '(gcode, st) :=
          add_numbered String.append g (splitlines true (POSTAMBLE g))
            gcode st in
        let gcode := gcode +:+ "%" +:+ LF in
        let final :=
          if GuiUp && SHOW_EDITOR g then editor gcode else gcode in
        Ok (Some final, g, st)
    end.

(** The text of a job none of whose operations is written, with the
    state it leaves: header, preamble and unit line, then the postamble and
    the closing line. *)
Definition program_without_operations (g : settings) (st0 : state)
  : string * state :=
  let gcode := header g in
  let gcode :=
    if OUTPUT_COMMENTS g then gcode +:+ "(BEGIN PREAMBLE)" +:+ LF
    else gcode in
  let '(gcode, st) :=
    add_numbered String.append g
      (map (fun line => line +:+ LF) (splitlines false (PREAMBLE g)))
      gcode st0 in
  let '(n, st) := linenumber g st in
  let gcode := gcode +:+ n +:+ UNITS g +:+ LF in
  let gcode :=
    if OUTPUT_COMMENTS g then gcode +:+ "(BEGIN POSTAMBLE)" +:+ LF
    else gcode in
  let '(gcode, st) :=
    add_numbered String.append g (splitlines true (POSTAMBLE g)) gcode st in
  (gcode +:+ "%" +:+ LF, st).

End DriverVocabulary.

(** ** Inputs of the worked examples *)

Module Inputs.
Import Reference Build.

Definition q (z : Z) : Q := z # 1.

(** G81 X1 Y2 Z-10 R2 F1.5, a drill cycle. *)
Definition drill : command :=
  cmd "G81" [("X", q 1); ("Y", q 2); ("Z", q (-10)); ("R", q 2); ("F", 3 # 2)].

(** M3 S500 *)
Definition spindle_start : command := cmd "M3" [("S", q 500)].

(** G1 X10 Y20 Z-5 with a feed of 100 mm/min *)
Definition feed_move : command :=
  cmd "G1" [("X", q 10); ("Y", q 20); ("Z", q (-5)); ("F", 100 # 60)].

(** G2 X10 Y0 I5 J0, an arc *)
Definition arc : command :=
  cmd "G2" [("X", q 10); ("Y", q 0); ("I", q 5); ("J", q 0)].

Definition postamble_lines : list string :=
  ["M05"; "G53 G0 Z0.000"; "G53 G0 X-350.000 Y0.000"; "M30"; "%"].

(** The state [parse] is in after it emitted [c] from the start of a leaf. *)
Definition after_emitting (c : command) (line : string) : local :=
  {| out := OStr (line +:+ LF); lastcommand := Some (Name c);
     currLocation := update (Parameters c) (currLocation initial_local) |}.

(** Two calls of [export] in a row on the same inputs, the second with
    the settings and the state the first left: the texts they return. *)
Definition two_exports (objectslist : list pathobj) (argstring : string)
  : option (option string * option string) :=
  match export default_settings initial_state objectslist "-" argstring with
  | Ok (first, g1, st1) =>
      match export g1 st1 objectslist "-" argstring with
      | Ok (second, _, _) => Some (first, second)
      | Raise _ => None
      end
  | Raise _ => None
  end.

(** The settings after the option --no-comments alone. *)
Definition without_comments : settings :=
  apply_args
    {| no_header := false; no_comments := true; line_numbers := false;
       no_show_editor := false; precision := "3"; preamble := None;
       postamble := None; inches := false; no_modal := false;
       no_axis_modal := false; no_tlo := false |} default_settings.

(** The settings after the option --inches alone. *)
Definition imperial : settings :=
  apply_args
    {| no_header := false; no_comments := false; line_numbers := false;
       no_show_editor := false; precision := "3"; preamble := None;
       postamble := None; inches := true; no_modal := false;
       no_axis_modal := false; no_tlo := false |} default_settings.

(** G0 X1 Y5, a rapid to the X of the drill cycle above *)
Definition approach : command := cmd "G0" [("X", q 1); ("Y", q 5)].

End Inputs.

(** ** Vocabulary of the further properties *)

(** The counter moved forward by a whole number of steps of five. *)
Definition whole_steps (st st' : state) : Prop :=
  exists k : Z, 0 <= k /\ LINENR st' = LINENR st + 5 * k.

(** A text made of whole lines: empty, or closed by a line feed. *)
Definition whole_lines (t : string) : Prop :=
  t = "" \/ exists t0 : string, t = t0 +:+ LF.

(** The lines [for line in lines: gcode += linenumber() + line] adds to a
    text, with the state it leaves. *)
Definition numbered (g : settings) (lines : list string) (st : state)
  : string * state :=
  add_numbered String.append g lines "" st.

(** ["".join(lines)] *)
Definition join (lines : list string) : string :=
  fold_right String.append "" lines.

Section FurtherVocabulary.
Context `{NumLib}.

(** Two commands with the same name and the same values for the letters
    of [params]; they may differ in any other letter. *)
Definition same_known (c1 c2 : command) : Prop :=
  Name c1 = Name c2
  /\ forall p, In p params -> Parameters c1 !! p = Parameters c2 !! p.

(** Two current locations that hold the same values for the letters of
    [params]. *)
Definition agree (cur1 cur2 : gmap string num) : Prop :=
  forall p, In p params -> cur1 !! p = cur2 !! p.

Definition same_local (l1 l2 : local) : Prop :=
  out l1 = out l2
  /\ lastcommand l1 = lastcommand l2
  /\ agree (currLocation l1) (currLocation l2).

(** Two rounds of the loop that end alike: with the same exception, or
    with the same state and with locals that [same_local] relates. *)
Definition alike (r1 r2 : result (local * state)) : Prop :=
  match r1, r2 with
  | Ok (l1, s1), Ok (l2, s2) => same_local l1 l2 /\ s1 = s2
  | Raise e1, Raise e2 => e1 = e2
  | _, _ => False
  end.

(** [obj.Path = Path.Path(commands)] *)
Definition with_Path (commands : list command) (o : pathobj) : pathobj :=
  {| obj_Name := obj_Name o; obj_Label := obj_Label o;
     obj_Active := obj_Active o; obj_Base := obj_Base o;
     obj_CoolantMode := obj_CoolantMode o; obj_CycleTime := obj_CycleTime o;
     obj_Group := obj_Group o; obj_Path := Some commands;
     obj_Tool := obj_Tool o; obj_SpindleSpeed := obj_SpindleSpeed o;
     obj_ToolController := obj_ToolController o |}.

(** The commands a round of the loop leaves at once, changing nothing: a
    rapid G0 of the object labelled "Fixture", and a comment when comments
    are suppressed. *)
Definition inert (g : settings) (o : pathobj) (c : command) : bool :=
  (String.eqb (obj_Label o) "Fixture" && String.eqb (Name c) "G0")
  || (match Name c with
      | String x _ => Ascii.eqb x paren
      | EmptyString => false
      end && negb (OUTPUT_COMMENTS g)).

(** The object has a tap as its tool or as the tool of its controller:
    the two tests that let [parse] assign [tapSpeed]. *)
Definition may_tap (o : pathobj) : bool :=
  match obj_Tool o with Some shape => String.eqb shape "tap" | None => false end
  || is_tap_tool o.

(** [out] is a string made of whole lines, and a message was the last
    command only if comments are written. *)
Definition tidy (g : settings) (l : local) : Prop :=
  (exists t : string, out l = OStr t /\ whole_lines t)
  /\ (OUTPUT_COMMENTS g = false -> lastcommand l <> Some "message").

(** The text of the children of a group, one after the other. *)
Fixpoint text_of_children (g : settings) (ps : list pathobj) (st : state)
  : result (string * state) :=
  match ps with
  | [] => Ok ("", st)
  | p :: ps' =>
      '(r, st) ← parse g p st;
      t ← str_add "" r;
      '(t', st) ← text_of_children g ps' st;
      Ok (t +:+ t', st)
  end.

End FurtherVocabulary.

(** ** Inputs of the further worked examples *)

Module FurtherInputs.
Import Reference Build Inputs.

(** The settings after the option --no-axis-modal alone. *)
Definition every_word : settings :=
  apply_args
    {| no_header := false; no_comments := false; line_numbers := false;
       no_show_editor := false; precision := "3"; preamble := None;
       postamble := None; inches := false; no_modal := false;
       no_axis_modal := true; no_tlo := false |} default_settings.

(** G0 X10 with the feed of [feed_move] *)
Definition rapid_with_feed : command :=
  cmd "G0" [("X", q 10); ("F", 100 # 60)].

(** G1 X1 with a letter K the translator does not know *)
Definition move_with_K : command := cmd "G1" [("X", q 1); ("K", q 7)].

(** G1 X1 *)
Definition move_without_K : command := cmd "G1" [("X", q 1)].

(** A message without parameters *)
Definition bare_message : command := cmd "message" [].

End FurtherInputs.

(** * Properties *)

(** ** Elementary facts *)

Lemma append_cons (x : ascii) (a b : string) :
  String x a +:+ b = String x (a +:+ b).
Proof. reflexivity. Qed.

Lemma append_assoc (a b c : string) : (a +:+ b) +:+ c = a +:+ (b +:+ c).
Proof.
  induction a as [|x a IH]; [reflexivity|].
  now rewrite !append_cons, IH.
Qed.

Lemma append_empty_r (a : string) : a +:+ "" = a.
Proof.
  induction a as [|x a IH]; [reflexivity|].
  now rewrite append_cons, IH.
Qed.

Lemma chars_app (a b : string) : chars (a +:+ b) = (chars a ++ chars b)%list.
Proof.
  unfold chars. induction a as [|x a IH]; [reflexivity|].
  rewrite append_cons. simpl. now rewrite IH.
Qed.

Lemma out_add_add (o : outbuf) (a b : string) :
  out_add (out_add o a) b = out_add o (a +:+ b).
Proof.
  destruct o as [t|items]; cbn [out_add].
  - now rewrite append_assoc.
  - now rewrite chars_app, app_assoc.
Qed.

Lemma out_add_empty (o : outbuf) : out_add o "" = o.
Proof.
  destruct o as [t|items]; cbn [out_add].
  - now rewrite append_empty_r.
  - unfold chars; simpl. now rewrite app_nil_r.
Qed.

Lemma linenumber_off (g : settings) (st : state) :
  OUTPUT_LINE_NUMBERS g = false -> linenumber g st = ("", st).
Proof. intros Hoff. unfold linenumber. now rewrite Hoff. Qed.

Lemma advance_0 (g : settings) (st : state) : advance g st 0 = st.
Proof.
  unfold advance. destruct (OUTPUT_LINE_NUMBERS g); [|reflexivity].
  destruct st as [n t]; simpl. f_equal. lia.
Qed.

Lemma linenumber_advance (g : settings) (st : state) (k : Z) :
  linenumber g (advance g st k)
  = (number_after g st (k + 1), advance g st (k + 1)).
Proof.
  unfold linenumber, advance, number_after.
  destruct (OUTPUT_LINE_NUMBERS g); [|reflexivity]. simpl.
  replace (LINENR st + 5 * k + 5) with (LINENR st + 5 * (k + 1)) by lia.
  reflexivity.
Qed.

Lemma linenumber_first (g : settings) (st : state) :
  linenumber g st = (number_after g st 1, advance g st 1).
Proof. rewrite <- (advance_0 g st) at 1. apply linenumber_advance. Qed.

Lemma advance_set_tapSpeed (g : settings) (st : state) (k n : Z) :
  advance g (set_tapSpeed n st) k = set_tapSpeed n (advance g st k).
Proof. unfold advance, set_tapSpeed. now destruct (OUTPUT_LINE_NUMBERS g). Qed.

Lemma number_after_set_tapSpeed (g : settings) (st : state) (k n : Z) :
  number_after g (set_tapSpeed n st) k = number_after g st k.
Proof. reflexivity. Qed.

(** ** processArguments *)

Section Resolver.
Context `{Host}.

(** C9.  When the parsed options contain --inches, the settings that
    [processArguments] leaves use the inch length unit, the inch-per-minute
    speed unit and the unit mode G20, and PRECISION is the integer 4 (so the
    format spec is ".4f") whatever --precision asked for. *)
Theorem imperial_forces_precision_4 (argstring : string) (args : Namespace)
    (g : settings) :
  parse_args argstring = Parsed args ->
  inches args = true ->
  exists g' : settings,
    processArguments argstring g = Ok (true, g')
    /\ UNIT_FORMAT g' = "in"
    /\ UNIT_SPEED_FORMAT g' = "in/min"
    /\ UNITS g' = "G20"
    /\ PRECISION g' = PyInt 4
    /\ precision_string g' = ".4f".
Proof.
  intros Hparse Hinches. exists (apply_args args g).
  unfold processArguments. rewrite Hparse.
  unfold precision_string, apply_args; simpl. rewrite Hinches.
  repeat split; reflexivity.
Qed.

End Resolver.

(** Decides the comparisons of two known strings in the goal. *)
Ltac eval_eqb :=
  repeat match goal with
  | |- context [String.eqb ?a ?b] =>
      let v := eval vm_compute in (String.eqb a b) in
      match v with true => idtac | false => idtac end;
      change (String.eqb a b) with v
  end;
  rewrite ?andb_false_r, ?orb_false_r, ?andb_true_r;
  cbn [andb orb negb].

(** Runs the binds whose left operand is a known result. *)
Ltac run :=
  cbn [mbind result_bind mret result_ret fmap result_fmap first_char].

(** ** The line counter *)

Lemma counter_kept_refl (g : settings) (st : state) : counter_kept g st st.
Proof. unfold counter_kept. split; [lia | reflexivity]. Qed.

Lemma linenumber_counter (g : settings) (st : state) :
  counter_kept g st (snd (linenumber g st)).
Proof.
  unfold counter_kept, linenumber.
  destruct (OUTPUT_LINE_NUMBERS g); cbn; split; (lia || discriminate || auto).
Qed.

Lemma linenumber_grows (g : settings) (st : state) :
  OUTPUT_LINE_NUMBERS g = true ->
  LINENR (snd (linenumber g st)) = LINENR st + 5.
Proof. intros Hon. unfold linenumber. now rewrite Hon. Qed.

(** Names the outcome of the next call of [linenumber] in the goal and
    records what it does to the counter. *)
Ltac step_linenumber :=
  match goal with
  | |- context [linenumber ?g ?st] =>
      let n := fresh "n" in
      let st' := fresh "st" in
      let Hl := fresh "Hl" in
      pose proof (linenumber_counter g st) as Hl;
      destruct (linenumber g st) as [n st']; cbn [snd] in Hl;
      cbv beta iota zeta
  end.

(** Closes a goal on the counter from the recorded steps. *)
Ltac counter_done :=
  unfold counter_kept in *; cbn [LINENR tapSpeed set_tapSpeed] in *;
  intuition lia.

Lemma add_numbered_counter {A : Type} (add : A -> string -> A) (g : settings)
    (lines : list string) :
  forall (acc : A) (st : state),
    counter_kept g st (snd (add_numbered add g lines acc st)).
Proof.
  induction lines as [|line rest IH]; intros acc st.
  - apply counter_kept_refl.
  - cbn [add_numbered]. step_linenumber.
    match goal with
    | |- counter_kept _ _ (snd (add_numbered _ _ _ ?a ?s)) =>
        pose proof (IH a s)
    end.
    counter_done.
Qed.

Ltac step_add_numbered :=
  match goal with
  | |- context [add_numbered ?add ?g ?lines ?acc ?st] =>
      let x := fresh "acc" in
      let st' := fresh "st" in
      let Ha := fresh "Ha" in
      pose proof (add_numbered_counter add g lines acc st) as Ha;
      destruct (add_numbered add g lines acc st) as [x st']; cbn [snd] in Ha;
      cbv beta iota zeta
  end.

(** ** The translator *)

Section TranslatorFacts.
Context `{NumLib}.

Lemma pop0_modal (g : settings) (command : string) (last : option string) :
  exists outstring : list string,
    (if MODAL g && bool_decide (Some command = last)
     then pop0 [command] else Ok [command]) = Ok outstring.
Proof. destruct (MODAL g && bool_decide (Some command = last)); eauto. Qed.

(** C2.  A command M6 whose parameter T truncates to [n], with the
    tool-change text empty: the command adds to the output exactly the lines
    "M5", "M6 T<n>" and, when the tool length offset is enabled, "G43 H<n>"
    (each behind its line number when numbering is on); with the offset
    disabled the third line is absent.  Nothing else of the command is
    emitted: the added text depends on [n] alone. *)
Theorem tool_change_lines (g : settings) (pathobj : pathobj)
    (nextcommand : string) (c : command) (l : local) (st : state) (t : num)
    (n : Z) (words : list string) :
  Name c = "M6" ->
  Parameters c !! "T" = Some t ->
  num_int t = Ok n ->
  TOOL_CHANGE g = "" ->
  param_words g (currLocation l) c params = Ok words ->
  parse_command g pathobj nextcommand c l st
  = Ok ({| out :=
             out_add (out l)
               (number_after g st 1 +:+ "M5" +:+ LF
                +:+ number_after g st 2 +:+ "M6 T" +:+ str_Z n +:+ LF
                +:+ (if USE_TLO g
                     then number_after g st 3 +:+ "G43 H" +:+ str_Z n +:+ LF
                     else ""));
           lastcommand := Some "M6";
           currLocation := update (Parameters c) (currLocation l) |},
        advance g st (if USE_TLO g then 3 else 2)).
Proof.
  intros Hname HT Hint Htc Hwords.
  unfold parse_command. rewrite Hname. eval_eqb. run.
  destruct (pop0_modal g "M6" (lastcommand l)) as [outstring ->]. run.
  rewrite Hwords. run.
  change (Ascii.eqb "M" paren) with false. cbn [andb].
  unfold tool_change. rewrite Htc.
  cbn [splitlines splitlines_from String.eqb add_numbered].
  rewrite linenumber_first, (linenumber_advance g st 1).
  change (1 + 1) with 2. rewrite HT, Hint. run.
  unfold set_out; cbn [out lastcommand currLocation].
  destruct (USE_TLO g).
  - rewrite (linenumber_advance g st 2). change (2 + 1) with 3.
    now rewrite !out_add_add, !append_assoc.
  - now rewrite !out_add_add, !append_assoc, append_empty_r.
Qed.

Lemma linenumber_tapSpeed (g : settings) (st : state) (k n : Z) :
  linenumber g (set_tapSpeed n (advance g st k))
  = (number_after g st (k + 1), set_tapSpeed n (advance g st (k + 1))).
Proof.
  rewrite <- advance_set_tapSpeed, linenumber_advance.
  now rewrite advance_set_tapSpeed.
Qed.

Lemma tap_words_pieces (g : settings) (fmt : num -> string) (suppress : bool)
    (cur : gmap string num) (c : command) (letters : list string) :
  writes_lengths g fmt c letters ->
  forall paramstring : string,
    tap_words g suppress cur c letters paramstring
    = Ok (paramstring +:+ tap_pieces g fmt suppress cur c letters).
Proof.
  induction letters as [|param rest IH]; intros Hfmt paramstring.
  - simpl. now rewrite append_empty_r.
  - cbn [tap_words tap_pieces fold_right]. unfold tap_piece at 1.
    assert (Hrest : writes_lengths g fmt c rest)
      by (intros p v Hin; apply Hfmt; now right).
    destruct (Parameters c !! param) as [v|] eqn:Hv.
    + unfold unchanged.
      destruct (suppress && _).
      * now rewrite IH.
      * unfold length_word, precision_string.
        rewrite (Hfmt param v (or_introl eq_refl) Hv). run.
        rewrite IH by assumption. now rewrite !append_assoc.
    + now rewrite IH.
Qed.

(** C1.  A command G81 or G83 of an operation whose tool controller holds
    a tap is replaced by the rigid-tap sequence: the line G95; the line G00
    with the X and Y words that are present and not suppressed, only when
    there is such a word; the line "M29 S<speed>", where the speed is the S
    of this command when it has one and the carried tap speed otherwise; the
    line G84 with the parameter string built so far (the X and Y words of
    the G00 line again), the Z and R words under the same suppression and
    the F, P and Q words, never suppressed; the lines G80 and G94.  Every
    value is written as the numeric library writes a length in the active
    unit [UNIT_FORMAT] with the active precision, the feed F included; a
    word under suppression is left out when repeated axis words are off and
    the current location holds an equal value.  Nothing of the original
    command is emitted, and the last command and the current location are
    left as they were. *)
Theorem tap_cycle_rewrite (g : settings) (pathobj : pathobj)
    (nextcommand : string) (c : command) (l : local) (st : state)
    (fmt : num -> string) (speed : Z) :
  Name c = "G81" \/ Name c = "G83" ->
  is_tap_tool pathobj = true ->
  (forall param v,
      In param ["X"; "Y"; "Z"; "R"; "F"; "P"; "Q"] ->
      Parameters c !! param = Some v ->
      length_as (UNIT_FORMAT g) ("." +:+ str (PRECISION g) +:+ "f") v
      = Ok (fmt v)) ->
  match Parameters c !! "S" with
  | Some s => num_int s = Ok speed
  | None => speed = tapSpeed st
  end ->
  let cur := currLocation l in
  let xy := tap_pieces g fmt true cur c ["X"; "Y"] in
  let zr := tap_pieces g fmt true cur c ["Z"; "R"] in
  let fpq := tap_pieces g fmt false cur c ["F"; "P"; "Q"] in
  let k := if String.eqb xy "" then 0 else 1 in
  parse_command g pathobj nextcommand c l st
  = Ok (set_out
          (out_add (out l)
             (number_after g st 1 +:+ "G95" +:+ LF
              +:+ (if String.eqb xy "" then ""
                   else number_after g st 2 +:+ "G00" +:+ xy +:+ LF)
              +:+ "M29 S" +:+ str_Z speed +:+ LF
              +:+ number_after g st (2 + k) +:+ "G84" +:+ xy +:+ zr +:+ fpq
              +:+ LF
              +:+ number_after g st (3 + k) +:+ "G80" +:+ LF
              +:+ number_after g st (4 + k) +:+ "G94" +:+ LF)) l,
        set_tapSpeed speed (advance g st (4 + k))).
Proof.
  intros Hname Htap Hfmt Hspeed cur xy zr fpq k.
  assert (Hxy : forall paramstring,
             tap_words g true cur c ["X"; "Y"] paramstring
             = Ok (paramstring +:+ xy)).
  { apply tap_words_pieces. intros p v Hin. apply Hfmt. simpl in *. tauto. }
  assert (Hzr : forall paramstring,
             tap_words g true cur c ["Z"; "R"] paramstring
             = Ok (paramstring +:+ zr)).
  { apply tap_words_pieces. intros p v Hin. apply Hfmt. simpl in *. tauto. }
  assert (Hfpq : forall paramstring,
             tap_words g false cur c ["F"; "P"; "Q"] paramstring
             = Ok (paramstring +:+ fpq)).
  { apply tap_words_pieces. intros p v Hin. apply Hfmt. simpl in *. tauto. }
  assert (Hgo : parse_command g pathobj nextcommand c l st
                = tap_rewrite g c l st).
  { unfold parse_command.
    destruct Hname as [-> | ->]; eval_eqb; run; now rewrite Htap. }
  rewrite Hgo. unfold tap_rewrite. fold cur.
  rewrite linenumber_first, Hxy. run. change ("" +:+ xy) with xy.
  assert (Hst : forall st0 : state, tapSpeed st0 = tapSpeed st ->
            match Parameters c !! "S" with
            | Some s => n ← num_int s; Ok (set_tapSpeed n st0)
            | None => Ok st0
            end = Ok (set_tapSpeed speed st0)).
  { intros st0 Hst0. destruct (Parameters c !! "S") as [s|].
    - now rewrite Hspeed.
    - subst speed. rewrite <- Hst0. now destruct st0. }
  subst k. destruct (String.eqb xy "") eqn:Hempty.
  - rewrite Hst by (unfold advance; now destruct (OUTPUT_LINE_NUMBERS g)).
    run. rewrite Hzr. run. rewrite Hfpq. run.
    rewrite !linenumber_tapSpeed. cbn [Z.add Pos.add Pos.succ].
    f_equal. f_equal.
    + f_equal. cbn [tapSpeed set_tapSpeed].
      rewrite !out_add_add, !append_assoc. reflexivity.
  - rewrite (linenumber_advance g st 1).
    rewrite Hst by (unfold advance; now destruct (OUTPUT_LINE_NUMBERS g)).
    run. rewrite Hzr. run. rewrite Hfpq. run.
    rewrite !linenumber_tapSpeed. cbn [Z.add Pos.add Pos.succ].
    f_equal. f_equal.
    + f_equal. cbn [tapSpeed set_tapSpeed].
      rewrite !out_add_add, !append_assoc. reflexivity.
Qed.

(** *** The seeded current location *)










(** *** Repeated commands *)






(** *** The message pseudo-command *)

Lemma fold_out_add_list (f : string -> string) (ws : list string)
    (items : list string) :
  exists items' : list string,
    fold_left (fun o w => out_add o (f w)) ws (OList items) = OList items'.
Proof.
  revert items. induction ws as [|w ws IH]; intros items; simpl; eauto.
Qed.

Lemma emit_line_list (g : settings) (w0 : string) (ws : list string)
    (items : list string) (st : state) :
  w0 <> "" ->
  emit_line g (w0 :: ws) (OList items) st = Raise AttributeError.
Proof.
  intros Hw0. unfold emit_line.
  destruct w0 as [|x w0]; [congruence|]. run.
  destruct (OUTPUT_LINE_NUMBERS g); run.
  - destruct (Ascii.eqb x paren); [|destruct (linenumber g st) as [n st']];
      run;
      match goal with
      | |- context [fold_left ?f ?ws (OList ?items)] =>
          destruct (fold_out_add_list (fun w => upper w +:+ COMMAND_SPACE)
                      ws items) as [items' Hfold];
          rewrite Hfold
      end; reflexivity.
  - match goal with
    | |- context [fold_left ?f ?ws (OList ?items)] =>
        destruct (fold_out_add_list (fun w => upper w +:+ COMMAND_SPACE)
                    ws items) as [items' Hfold];
        rewrite Hfold
    end; reflexivity.
Qed.

(** C8, on the code: with comments suppressed, a message command that is
    not the repetition of a message rebinds [out] to a list, appends the
    characters of its own line to that list and then asks the list to
    strip itself, which raises AttributeError: nothing is restarted. *)
Theorem message_without_comments_raises (g : settings) (pathobj : pathobj)
    (nextcommand : string) (c : command) (l : local) (st : state)
    (words : list string) :
  Name c = "message" ->
  OUTPUT_COMMENTS g = false ->
  lastcommand l <> Some "message" ->
  param_words g (currLocation l) c params = Ok words ->
  parse_command g pathobj nextcommand c l st = Raise AttributeError.
Proof.
  intros Hname Hcomments Hlast Hwords.
  unfold parse_command. rewrite Hname, Hcomments, Hwords. eval_eqb. run.
  rewrite (bool_decide_eq_false_2 (Some "message" = lastcommand l))
    by congruence.
  rewrite andb_false_r. run.
  change (Ascii.eqb "m" paren) with false. cbn [andb app]. run.
  rewrite emit_line_list by discriminate. reflexivity.
Qed.

(** With comments enabled the mnemonic is dropped and the words of the
    message make the line. *)
Lemma message_with_comments (g : settings) (pathobj : pathobj)
    (nextcommand : string) (c : command) (l : local) (st : state)
    (words : list string) :
  Name c = "message" ->
  OUTPUT_COMMENTS g = true ->
  lastcommand l <> Some "message" ->
  param_words g (currLocation l) c params = Ok words ->
  parse_command g pathobj nextcommand c l st
  = '(o, st') ← emit_line g words (out l) st;
    Ok ({| out := o; lastcommand := Some "message";
           currLocation := update (Parameters c) (currLocation l) |}, st').
Proof.
  intros Hname Hcomments Hlast Hwords.
  unfold parse_command. rewrite Hname, Hcomments, Hwords. eval_eqb. run.
  rewrite (bool_decide_eq_false_2 (Some "message" = lastcommand l))
    by congruence.
  destruct (MODAL g); cbn [andb]; run;
    change (Ascii.eqb "m" paren) with false; cbn [andb app pop0 out]; run;
    destruct (emit_line g words (out l) st) as [[o st']|]; reflexivity.
Qed.

(** *** The line counter through the translator *)

Section Counter.
Variable g : settings.

Lemma tap_rewrite_counter (c : command) (l l' : local) (st st' : state) :
  tap_rewrite g c l st = Ok (l', st') -> counter_kept g st st'.
Proof.
  unfold tap_rewrite. step_linenumber.
  destruct (tap_words g true (currLocation l) c ["X"; "Y"] "") as [xy|];
    run; [|discriminate].
  destruct (String.eqb xy ""); [|step_linenumber]; cbv beta iota zeta;
    (destruct (Parameters c !! "S") as [s|];
     [destruct (num_int s) as [n'|]; run; [|discriminate]|run];
     (destruct (tap_words g true (currLocation l) c ["Z"; "R"] xy) as [zr|];
      run; [|discriminate]);
     (destruct (tap_words g false (currLocation l) c ["F"; "P"; "Q"] zr)
        as [fpq|]; run; [|discriminate]);
     repeat step_linenumber;
     intros Heq; inversion Heq; subst; counter_done).
Qed.

Lemma tool_change_counter (c : command) (l l' : local) (st st' : state) :
  tool_change g c l st = Ok (l', st') -> counter_kept g st st'.
Proof.
  unfold tool_change. step_linenumber. step_add_numbered. step_linenumber.
  destruct (Parameters c !! "T") as [t|]; [|discriminate].
  destruct (num_int t) as [n'|]; run; [|discriminate].
  destruct (USE_TLO g); [step_linenumber|];
    intros Heq; inversion Heq; subst; counter_done.
Qed.

Lemma emit_line_counter (outstring : list string) (o o' : outbuf)
    (st st' : state) :
  emit_line g outstring o st = Ok (o', st') -> counter_kept g st st'.
Proof.
  unfold emit_line.
  destruct outstring as [|w0 ws].
  { intros Heq. inversion Heq. apply counter_kept_refl. }
  destruct (OUTPUT_LINE_NUMBERS g) eqn:Hnum.
  - destruct (first_char w0) as [c0|]; run; [|discriminate].
    destruct (Ascii.eqb c0 paren); [|step_linenumber]; run;
      (destruct (finish_line _) as [o1|]; run; [|discriminate]);
      intros Heq; inversion Heq; subst; counter_done.
  - run. destruct (finish_line _) as [o1|]; run; [|discriminate].
    intros Heq. inversion Heq. apply counter_kept_refl.
Qed.

Lemma parse_command_counter (pathobj : pathobj) (nextcommand : string)
    (c : command) (l l' : local) (st st' : state) :
  parse_command g pathobj nextcommand c l st = Ok (l', st') ->
  counter_kept g st st'.
Proof.
  unfold parse_command.
  destruct ((obj_Label pathobj =? "Fixture") && (Name c =? "G0")).
  { intros Heq. inversion Heq. apply counter_kept_refl. }
  destruct (if (Name c =? "M03") || (Name c =? "M3")
            then is_tap_shape pathobj else Ok false) as [[|]|e];
    run; [| |discriminate].
  { destruct (obj_SpindleSpeed pathobj) as [s|]; [|discriminate].
    destruct (num_int s) as [n'|]; run; [|discriminate].
    intros Heq. inversion Heq. counter_done. }
  destruct (((Name c =? "G81") || (Name c =? "G83")) && is_tap_tool pathobj);
    [apply tap_rewrite_counter|].
  destruct (pop0_modal g (Name c) (lastcommand l)) as [outstring ->]. run.
  destruct ((Name c =? "G80")
            && bool_decide (lastcommand l = Some nextcommand)).
  { intros Heq. inversion Heq. apply counter_kept_refl. }
  destruct (first_char (Name c)) as [c0|]; run; [|discriminate].
  destruct ((c0 =? paren)%char && negb (OUTPUT_COMMENTS g)).
  { intros Heq. inversion Heq. apply counter_kept_refl. }
  destruct (param_words g (currLocation l) c params) as [words|];
    run; [|discriminate].
  destruct (Name c =? "M6"); [apply tool_change_counter|].
  destruct (if Name c =? "message" then _ else _) as [[o outstring']|];
    run; [|discriminate].
  destruct (emit_line g outstring' o st) as [[o' st1]|] eqn:Hemit;
    run; [|discriminate].
  apply emit_line_counter in Hemit.
  intros Heq. inversion Heq. subst. exact Hemit.
Qed.

Lemma parse_commands_counter (pathobj : pathobj) (commands : list command) :
  forall (l l' : local) (st st' : state),
    parse_commands g pathobj commands l st = Ok (l', st') ->
    counter_kept g st st'.
Proof.
  induction commands as [|c rest IH]; intros l l' st st'.
  - intros Heq. inversion Heq. apply counter_kept_refl.
  - cbn [parse_commands].
    destruct (parse_command g pathobj _ c l st) as [[l1 st1]|] eqn:Hc;
      run; [|discriminate].
    intros Hrest. apply IH in Hrest. apply parse_command_counter in Hc.
    counter_done.
Qed.

Lemma parse_counter :
  forall (pathobj : pathobj) (st st' : state) (r : outbuf),
    parse g pathobj st = Ok (r, st') -> counter_kept g st st'.
Proof.
  fix IH 1. intros [name label active base coolant cycle group path tool
                      speed controller] st st' r.
  cbn [parse]. destruct group as [ps|].
  - generalize "" at 1. revert st.
    induction ps as [|p ps IHps]; intros st text.
    + intros Heq. inversion Heq. apply counter_kept_refl.
    + destruct (parse g p st) as [[r1 st1]|] eqn:Hp; run; [|discriminate].
      destruct (str_add text r1) as [text1|]; run; [|discriminate].
      intros Hrest. apply IHps in Hrest. apply IH in Hp. counter_done.
  - destruct path as [commands|].
    + destruct (parse_commands g _ commands initial_local st)
        as [[l1 st1]|] eqn:Hcs; run; [|discriminate].
      apply parse_commands_counter in Hcs.
      intros Heq. inversion Heq. subst. exact Hcs.
    + intros Heq. inversion Heq. apply counter_kept_refl.
Qed.

End Counter.

(** *** The Active attribute *)

Lemma parse_command_set_Active (g : settings) (a : option bool)
    (pathobj : pathobj) (nextcommand : string) (c : command) (l : local)
    (st : state) :
  parse_command g (set_Active a pathobj) nextcommand c l st
  = parse_command g pathobj nextcommand c l st.
Proof. reflexivity. Qed.

Lemma parse_commands_set_Active (g : settings) (a : option bool)
    (pathobj : pathobj) (commands : list command) :
  forall (l : local) (st : state),
    parse_commands g (set_Active a pathobj) commands l st
    = parse_commands g pathobj commands l st.
Proof.
  induction commands as [|c rest IH]; intros l st; [reflexivity|].
  cbn [parse_commands]. rewrite parse_command_set_Active.
  destruct (parse_command g pathobj _ c l st) as [[l1 st1]|]; run;
    [apply IH | reflexivity].
Qed.

(** [parse] never reads the Active attribute of the object it is given. *)
Lemma parse_set_Active (g : settings) (a : option bool) (pathobj : pathobj)
    (st : state) :
  parse g (set_Active a pathobj) st = parse g pathobj st.
Proof.
  destruct pathobj as [name label active base coolant cycle group path tool
                         speed controller].
  cbn [set_Active obj_Name obj_Label obj_Base obj_CoolantMode obj_CycleTime
       obj_Group obj_Path obj_Tool obj_SpindleSpeed obj_ToolController parse].
  destruct group as [ps|]; [reflexivity|].
  destruct path as [commands|]; [|reflexivity].
  now rewrite (parse_commands_set_Active g a
                 (PathObj name label active base coolant cycle None
                    (Some commands) tool speed controller) commands).
Qed.

End TranslatorFacts.

(** ** The driver *)

Section DriverFacts.
Context `{NumLib} `{Host}.

(** Once the options are accepted, an object without a path makes
    [export] return None before any text is built. *)
Lemma export_rejects_object_without_path (g0 : settings) (st0 : state)
    (objectslist : list pathobj) (filename argstring : string)
    (args : Namespace) :
  parse_args argstring = Parsed args ->
  forallb has_Path objectslist = false ->
  export g0 st0 objectslist filename argstring
  = Ok (None, apply_args args g0, st0).
Proof.
  intros Hparse Hpath. unfold export, processArguments.
  rewrite Hparse. run. cbn [negb]. now rewrite Hpath.
Qed.

(** An exception of the parser that derives from Exception makes
    [export] return None and leaves settings and state as they were. *)
Lemma export_rejects_options (g0 : settings) (st0 : state)
    (objectslist : list pathobj) (filename argstring : string) (e : exn) :
  parse_args argstring = ParseRaises e ->
  is_Exception e = true ->
  export g0 st0 objectslist filename argstring = Ok (None, g0, st0).
Proof.
  intros Hparse He. unfold export, processArguments.
  now rewrite Hparse, He.
Qed.

(** C7, on the code: when the parser leaves through [parser.error], the
    SystemExit it raises is not an Exception; [processArguments] does not
    catch it and [export] neither returns None nor any text: the exit
    propagates to the caller. *)
Theorem export_parser_exit_propagates (g0 : settings) (st0 : state)
    (objectslist : list pathobj) (filename argstring : string) :
  parse_args argstring = ParseRaises SystemExit ->
  export g0 st0 objectslist filename argstring = Raise SystemExit.
Proof.
  intros Hparse. unfold export, processArguments. now rewrite Hparse.
Qed.

(** *** Inactive operations *)

Lemma export_objects_inactive (g : settings) (pre post : list pathobj)
    (obj : pathobj) :
  inactive obj = true ->
  forall (gcode : string) (st : state),
    export_objects g (pre ++ obj :: post) gcode st
    = export_objects g (pre ++ post) gcode st.
Proof.
  intros Hin. induction pre as [|p pre IH]; intros gcode st.
  - simpl. now rewrite Hin.
  - simpl. destruct (inactive p); [apply IH|].
    destruct (export_operation g p gcode st) as [[gcode' st']|]; run;
      [apply IH | reflexivity].
Qed.

Lemma export_objects_all_inactive (g : settings)
    (objectslist : list pathobj) (gcode : string) (st : state) :
  forallb inactive objectslist = true ->
  export_objects g objectslist gcode st = Ok (gcode, st).
Proof.
  induction objectslist as [|obj rest IH]; [reflexivity|].
  cbn [forallb export_objects]. intros Hall.
  apply andb_true_iff in Hall as [-> Hrest]. now apply IH.
Qed.

(** The loop over the commands reads four attributes of the object. *)
Lemma parse_commands_attributes (g : settings) (o1 o2 : pathobj)
    (commands : list command) :
  obj_Label o1 = obj_Label o2 ->
  obj_Tool o1 = obj_Tool o2 ->
  obj_SpindleSpeed o1 = obj_SpindleSpeed o2 ->
  obj_ToolController o1 = obj_ToolController o2 ->
  forall (l : local) (st : state),
    parse_commands g o1 commands l st = parse_commands g o2 commands l st.
Proof.
  intros Hlabel Htool Hspeed Hcontroller.
  induction commands as [|c rest IH]; intros l st; [reflexivity|].
  cbn [parse_commands].
  assert (Hc : forall next,
             parse_command g o1 next c l st = parse_command g o2 next c l st).
  { intros next. unfold parse_command, is_tap_shape, is_tap_tool.
    now rewrite Hlabel, Htool, Hspeed, Hcontroller. }
  rewrite Hc.
  destruct (parse_command g o2 _ c l st) as [[l1 st1]|]; run;
    [apply IH | reflexivity].
Qed.

(** [parse] reads the Active attribute nowhere: neither on the object it
    is given, nor on its base, nor on anything it reaches through
    [Group]. *)
Lemma parse_without_Active (g : settings) :
  forall (pathobj : pathobj) (st : state),
    parse g (without_Active pathobj) st = parse g pathobj st.
Proof.
  fix IH 1. intros [name label active base coolant cycle group path tool
                      speed controller] st.
  cbn [without_Active parse]. destruct group as [ps|].
  - generalize "". revert st.
    induction ps as [|p ps IHps]; intros st text; [reflexivity|].
    cbn [map]. rewrite IH.
    destruct (parse g p st) as [[r st1]|]; run; [|reflexivity].
    destruct (str_add text r) as [text1|]; run; [|reflexivity].
    apply IHps.
  - destruct path as [commands|]; [|reflexivity].
    now rewrite (parse_commands_attributes g _
                   (PathObj name label active base coolant cycle None
                      (Some commands) tool speed controller)).
Qed.

(** C3, as the code has it.  An object of the list given to [export]
    whose Active attribute is false, or whose base's Active attribute is
    false, and which has a path as the validation demands of every object:
    (1) the loop over the list skips it: the loop gives the text and the
    module state it gives for the list without the object, wherever the
    object stands and also when it stands alone;
    (2) the whole of [export] gives what it gives for the list without the
    object, when that list is not empty;
    (3) when every other object of the list is skipped as well, [export]
    returns the program without operations: header, preamble, unit line,
    postamble and closing line, with the state these leave;
    (4) [parse] reads the attribute nowhere, neither on the object it is
    given nor on its base nor below it: two objects that differ in Active
    attributes only, at any depth, are translated alike, so a leaf reached
    through a group is translated whatever its Active attribute says. *)
Theorem inactive_toplevel_object_skipped (g0 : settings) (st0 : state)
    (pre post : list pathobj) (obj : pathobj) (filename argstring : string) :
  inactive obj = true ->
  has_Path obj = true ->
  (forall g gcode st,
      export_objects g (pre ++ obj :: post) gcode st
      = export_objects g (pre ++ post) gcode st)
  /\ ((pre ++ post)%list <> [] ->
      export g0 st0 (pre ++ obj :: post) filename argstring
      = export g0 st0 (pre ++ post) filename argstring)
  /\ (forallb inactive (pre ++ post) = true ->
      forallb has_Path (pre ++ post) = true ->
      export g0 st0 (pre ++ obj :: post) filename argstring
      = '(ok, g) ← processArguments argstring g0;
        if negb ok then Ok (None, g, st0)
        else
          let '(text, st) := program_without_operations g st0 in
          Ok (Some (if GuiUp && SHOW_EDITOR g then editor text else text),
              g, st))
  /\ (forall g o1 o2 st,
         without_Active o1 = without_Active o2 ->
         parse g o1 st = parse g o2 st).
Proof.
  intros Hin Hpath. split; [|split; [|split]].
  - intros g gcode st. now apply export_objects_inactive.
  - intros Hne. unfold export.
    destruct (processArguments argstring g0) as [[ok g]|]; run;
      [|reflexivity].
    destruct (negb ok); [reflexivity|].
    rewrite !forallb_app. cbn [forallb]. rewrite Hpath. cbn [andb].
    destruct (negb (forallb has_Path pre && forallb has_Path post));
      [reflexivity|].
    repeat match goal with
    | |- (let '(a, b) := ?x in _) = _ => destruct x as [? ?]
    end.
    rewrite export_objects_inactive by assumption.
    destruct (pre ++ post)%list as [|p ps] eqn:Hpp; [congruence|].
    destruct (pre ++ obj :: post)%list as [|p' ps'] eqn:Hpo; [|reflexivity].
    now destruct pre.
  - intros Hskipped Hpaths. unfold export, program_without_operations.
    destruct (processArguments argstring g0) as [[ok g]|]; run;
      [|reflexivity].
    destruct (negb ok); [reflexivity|].
    assert (Hall : forallb has_Path (pre ++ obj :: post) = true).
    { rewrite forallb_app in *. cbn [forallb]. rewrite Hpath.
      apply andb_true_iff in Hpaths as [-> ->]. reflexivity. }
    rewrite Hall. cbn [negb].
    destruct (add_numbered _ _ _ _ _) as [gcode1 st1].
    destruct (linenumber g st1) as [n st2].
    rewrite export_objects_inactive, export_objects_all_inactive
      by assumption.
    run.
    destruct (pre ++ obj :: post)%list as [|p' ps'] eqn:Hpo;
      [now destruct pre|].
    destruct (add_numbered _ _ _ _ _) as [gcode2 st3]. reflexivity.
  - intros g o1 o2 st Hsame.
    rewrite <- (parse_without_Active g o1), <- (parse_without_Active g o2).
    now rewrite Hsame.
Qed.

(** *** Successive calls *)

Lemma export_generate (g0 : settings) (st0 : state)
    (objectslist : list pathobj) (filename argstring : string) :
  export g0 st0 objectslist filename argstring
  = '(ok, g) ← processArguments argstring g0;
    if negb ok then Ok (None, g, st0) else generate g st0 objectslist.
Proof. reflexivity. Qed.

Lemma apply_args_twice (args : Namespace) (g : settings) :
  apply_args args (apply_args args g) = apply_args args g.
Proof.
  unfold apply_args; cbn.
  destruct (no_header args), (no_comments args), (line_numbers args),
    (no_show_editor args), (inches args), (no_modal args), (no_tlo args),
    (no_axis_modal args), (preamble args), (postamble args); reflexivity.
Qed.

Section DriverCounter.
Variable g : settings.

Lemma export_operation_counter (obj : pathobj) (gcode gcode' : string)
    (st st' : state) :
  export_operation g obj gcode st = Ok (gcode', st') ->
  counter_kept g st st'.
Proof.
  unfold export_operation. step_add_numbered.
  destruct (String.eqb (coolant_mode obj) "Flood"); [step_linenumber|];
    (destruct (String.eqb (coolant_mode obj) "Mist"); [step_linenumber|]);
    cbv beta iota zeta;
    (match goal with
     | |- context [parse g obj ?s] =>
         destruct (parse g obj s) as [[r stp]|] eqn:Hp
     end; run; [|discriminate];
     apply parse_counter in Hp;
     destruct (str_add _ r) as [gcode1|]; run; [|discriminate];
     step_add_numbered;
     destruct (negb (String.eqb (coolant_mode obj) "None"));
     [step_linenumber|];
     intros Heq; inversion Heq; subst; counter_done).
Qed.

Lemma export_objects_counter (objectslist : list pathobj) :
  forall (gcode gcode' : string) (st st' : state),
    export_objects g objectslist gcode st = Ok (gcode', st') ->
    counter_kept g st st'.
Proof.
  induction objectslist as [|obj rest IH]; intros gcode gcode' st st'.
  - intros Heq. inversion Heq. apply counter_kept_refl.
  - cbn [export_objects]. destruct (inactive obj); [apply IH|].
    destruct (export_operation g obj gcode st) as [[gcode1 st1]|] eqn:Hop;
      run; [|discriminate].
    intros Hrest. apply IH in Hrest. apply export_operation_counter in Hop.
    counter_done.
Qed.

(** A call that returns a text numbers at least the unit line. *)
Lemma generate_counter (objectslist : list pathobj) (st st' : state)
    (text : string) (g' : settings) :
  generate g st objectslist = Ok (Some text, g', st') ->
  g' = g
  /\ counter_kept g st st'
  /\ (OUTPUT_LINE_NUMBERS g = true -> LINENR st + 5 <= LINENR st').
Proof.
  unfold generate.
  destruct (negb (forallb has_Path objectslist)); [discriminate|].
  step_add_numbered.
  match goal with
  | |- context [linenumber g ?s] =>
      pose proof (linenumber_grows g s) as Hgrow;
      pose proof (linenumber_counter g s) as Hunit;
      destruct (linenumber g s) as [nu stu]; cbn [snd] in Hgrow, Hunit
  end.
  destruct objectslist as [|obj rest]; [discriminate|].
  destruct (export_objects g (obj :: rest) _ stu) as [[gcode1 sto]|] eqn:Hobjs;
    run; [|discriminate].
  apply export_objects_counter in Hobjs.
  step_add_numbered.
  intros Heq. inversion Heq. subst. split; [reflexivity|].
  split; [counter_done|]. intros Hon. specialize (Hgrow Hon). counter_done.
Qed.

End DriverCounter.

(** C5, as the code has it.  The last command and the current location
    are local to [parse]: every leaf is translated from [initial_local],
    whatever was translated before it.  The line counter is module state
    that [export] never resets: with line numbering on, a call that returns
    a text leaves the counter at least one step above where it found it, and
    the next call counts on from there.  A second call of [export] on the
    same inputs returns the same text, and leaves the same settings and
    state, when line numbering is off and the first call left the carried
    tap speed as it found it. *)
Theorem export_repeats_without_numbering (g0 : settings) (st0 : state)
    (objectslist : list pathobj) (filename argstring : string)
    (text : string) (g1 : settings) (st1 : state) :
  export g0 st0 objectslist filename argstring = Ok (Some text, g1, st1) ->
  (forall pathobj commands st,
      obj_Group pathobj = None ->
      obj_Path pathobj = Some commands ->
      parse g1 pathobj st
      = '(l, st') ← parse_commands g1 pathobj commands initial_local st;
        Ok (out l, st'))
  /\ (OUTPUT_LINE_NUMBERS g1 = true -> LINENR st0 + 5 <= LINENR st1)
  /\ (OUTPUT_LINE_NUMBERS g1 = false ->
      tapSpeed st1 = tapSpeed st0 ->
      export g1 st1 objectslist filename argstring = Ok (Some text, g1, st1)).
Proof.
  intros Hfirst. split.
  { intros [name label active base coolant cycle group path tool speed
              controller] commands st Hgroup Hpath.
    cbn in Hgroup, Hpath. subst group path. reflexivity. }
  rewrite export_generate in *. unfold processArguments in *.
  destruct (parse_args argstring) as [args|e].
  - revert Hfirst. run. cbn [negb]. intros Hgen.
    destruct (generate_counter _ _ _ _ _ _ Hgen) as (Hg & Hkept & Hgrow).
    split; [now rewrite Hg|].
    intros Hoff Htap.
    assert (Hidem : apply_args args g1 = g1)
      by (rewrite Hg; apply apply_args_twice).
    rewrite Hidem. rewrite <- Hg in Hgen, Hkept.
    assert (Hst : st1 = st0).
    { destruct Hkept as [_ Hline]. specialize (Hline Hoff).
      destruct st0, st1; cbn in *; congruence. }
    rewrite Hst in *. exact Hgen.
  - revert Hfirst. destruct (is_Exception e); run; discriminate.
Qed.

End DriverFacts.

(** * Further properties *)

(** ** Options *)

Section ResolverFacts.
Context `{Host}.

(** X1.  Whatever the option string, [processArguments] moves a switch
    one way only: header, comments, editor, modal suppression and the tool
    length offset are never switched back on, line numbers and repeated
    axis words never back off, the inch mode never back to metric; the
    pre-operation, post-operation and tool-change texts are never touched. *)
Theorem options_switch_one_way (argstring : string) (g g' : settings)
    (ok : bool) :
  processArguments argstring g = Ok (ok, g') ->
  (OUTPUT_HEADER g = false -> OUTPUT_HEADER g' = false)
  /\ (OUTPUT_COMMENTS g = false -> OUTPUT_COMMENTS g' = false)
  /\ (SHOW_EDITOR g = false -> SHOW_EDITOR g' = false)
  /\ (MODAL g = false -> MODAL g' = false)
  /\ (USE_TLO g = false -> USE_TLO g' = false)
  /\ (OUTPUT_LINE_NUMBERS g = true -> OUTPUT_LINE_NUMBERS g' = true)
  /\ (OUTPUT_DOUBLES g = true -> OUTPUT_DOUBLES g' = true)
  /\ (UNITS g = "G20" -> UNITS g' = "G20")
  /\ (UNIT_FORMAT g = "in" -> UNIT_FORMAT g' = "in")
  /\ (UNIT_SPEED_FORMAT g = "in/min" -> UNIT_SPEED_FORMAT g' = "in/min")
  /\ PRE_OPERATION g' = PRE_OPERATION g
  /\ POST_OPERATION g' = POST_OPERATION g
  /\ TOOL_CHANGE g' = TOOL_CHANGE g.
Proof.
  unfold processArguments.
  destruct (parse_args argstring) as [args|e].
  - intros Heq. inversion Heq. subst. unfold apply_args. cbn.
    destruct (no_header args), (no_comments args), (no_show_editor args),
      (no_modal args), (no_tlo args), (line_numbers args),
      (no_axis_modal args), (inches args); repeat split; auto.
  - destruct (is_Exception e); [|discriminate].
    intros Heq. inversion Heq. subst. repeat split; auto.
Qed.

(** X2.  The precision is assigned afresh by every accepted call while the
    units are only ever switched to inches: if an earlier call selected
    inches and this one does not, the units stay inches and the precision
    becomes the string of --precision (the default "3"), not 4. *)
Theorem inches_persist_precision_does_not (argstring : string)
    (args : Namespace) (g : settings) :
  parse_args argstring = Parsed args ->
  inches args = false ->
  UNIT_FORMAT g = "in" ->
  exists g' : settings,
    processArguments argstring g = Ok (true, g')
    /\ UNIT_FORMAT g' = "in"
    /\ PRECISION g' = PyStr (precision args)
    /\ precision_string g' = "." +:+ precision args +:+ "f".
Proof.
  intros Hparse Hinches Hunit. exists (apply_args args g).
  unfold processArguments, precision_string, apply_args. rewrite Hparse.
  cbn. rewrite Hinches. auto.
Qed.

(** X3.  Processing the same option string again changes nothing: the
    settings an accepted or refused call leaves are a fixed point of the
    call. *)
Theorem processArguments_again (argstring : string) (g g' : settings)
    (ok : bool) :
  processArguments argstring g = Ok (ok, g') ->
  processArguments argstring g' = Ok (ok, g').
Proof.
  unfold processArguments.
  destruct (parse_args argstring) as [args|e].
  - intros Heq. inversion Heq. subst. now rewrite apply_args_twice.
  - destruct (is_Exception e); [|discriminate].
    intros Heq. inversion Heq. now subst.
Qed.

End ResolverFacts.

(** ** Errors of the driver *)

Section DriverErrors.
Context `{NumLib} `{Host}.

(** X4.  With accepted options and an empty list of objects, [export]
    raises IndexError: the list passes the validation, and the label of
    its first object is read after the preamble. *)
Theorem export_of_nothing_raises (g0 : settings) (st0 : state)
    (filename argstring : string) (args : Namespace) :
  parse_args argstring = Parsed args ->
  export g0 st0 [] filename argstring = Raise IndexError.
Proof.
  intros Hparse. unfold export, processArguments. rewrite Hparse. run.
  cbn [negb forallb].
  repeat match goal with
  | |- (let '(a, b) := ?x in _) = _ => destruct x as [? ?]
  end.
  reflexivity.
Qed.

End DriverErrors.

(** ** Errors of the translator *)

Section TranslatorErrors.
Context `{NumLib}.

(** X5.  A command with an empty name makes the translator raise
    IndexError, whatever the settings and the state: its first character
    is read to tell a comment. *)
Theorem empty_name_raises (g : settings) (pathobj : pathobj)
    (nextcommand : string) (c : command) (l : local) (st : state) :
  Name c = "" ->
  parse_command g pathobj nextcommand c l st = Raise IndexError.
Proof.
  intros Hname. unfold parse_command. rewrite Hname. eval_eqb. run.
  destruct (pop0_modal g "" (lastcommand l)) as [outstring ->]. run.
  reflexivity.
Qed.

(** X6.  A spindle start M3 or M03 raises AttributeError on an object
    without a tool, and also on a tap whose operation has no spindle
    speed. *)
Theorem spindle_start_needs_tool (g : settings) (pathobj : pathobj)
    (nextcommand : string) (c : command) (l : local) (st : state) :
  Name c = "M3" \/ Name c = "M03" ->
  obj_Tool pathobj = None
  \/ (obj_Tool pathobj = Some "tap" /\ obj_SpindleSpeed pathobj = None) ->
  parse_command g pathobj nextcommand c l st = Raise AttributeError.
Proof.
  intros Hname Htool. unfold parse_command, is_tap_shape.
  destruct Hname as [-> | ->]; eval_eqb;
    (destruct Htool as [-> | [-> ->]]; run; reflexivity).
Qed.

(** X7.  A tool change M6 without the parameter T raises KeyError, once
    its other words were formatted. *)
Theorem tool_change_needs_T (g : settings) (pathobj : pathobj)
    (nextcommand : string) (c : command) (l : local) (st : state)
    (words : list string) :
  Name c = "M6" ->
  Parameters c !! "T" = None ->
  param_words g (currLocation l) c params = Ok words ->
  parse_command g pathobj nextcommand c l st = Raise KeyError.
Proof.
  intros Hname HT Hwords.
  unfold parse_command. rewrite Hname. eval_eqb. run.
  destruct (pop0_modal g "M6" (lastcommand l)) as [outstring ->]. run.
  rewrite Hwords. run.
  change (Ascii.eqb "M" paren) with false. cbn [andb].
  unfold tool_change. rewrite HT.
  repeat match goal with
  | |- (let '(a, b) := ?x in _) = _ => destruct x as [? ?]
  end.
  reflexivity.
Qed.

(** X8.  With comments and modal suppression enabled, a message that
    follows a message has lost its mnemonic to the modal rule when the
    message rule drops the first word once more: without words the command
    raises IndexError, and with words the first of them is lost. *)
Theorem repeated_message_loses_a_word (g : settings) (pathobj : pathobj)
    (nextcommand : string) (c : command) (l : local) (st : state)
    (words : list string) :
  Name c = "message" ->
  OUTPUT_COMMENTS g = true ->
  MODAL g = true ->
  lastcommand l = Some "message" ->
  param_words g (currLocation l) c params = Ok words ->
  parse_command g pathobj nextcommand c l st
  = match words with
    | [] => Raise IndexError
    | _ :: rest =>
        '(o, st') ← emit_line g rest (out l) st;
        Ok ({| out := o; lastcommand := Some "message";
               currLocation := update (Parameters c) (currLocation l) |}, st')
    end.
Proof.
  intros Hname Hcomments Hmodal Hlast Hwords.
  unfold parse_command.
  rewrite Hname, Hcomments, Hmodal, Hlast, Hwords. eval_eqb. run.
  cbn [pop0]. run.
  change (Ascii.eqb "m" paren) with false. cbn [andb app pop0 out]. run.
  destruct words as [|w rest]; cbn [pop0]; run; [reflexivity|].
  unfold set_out. cbn [out lastcommand currLocation].
  destruct (emit_line g rest (out l) st) as [[o st']|]; reflexivity.
Qed.

End TranslatorErrors.

(** ** What moves the module state

    Every change [parse] and [export] make to the module state is a call
    of [linenumber] or an assignment of [tapSpeed], and only an object with
    a tap assigns [tapSpeed].  A relation closed under these steps holds
    between the state before and the state after. *)

Section Trace.
Context `{NumLib} `{Host}.
Variable g : settings.
Variable R : state -> state -> Prop.
Hypothesis R_refl : forall st, R st st.
Hypothesis R_trans : forall a b c, R a b -> R b c -> R a c.
Hypothesis R_line : forall st, R st (snd (linenumber g st)).

Ltac trace_line :=
  match goal with
  | |- context [linenumber g ?st] =>
      let n := fresh "n" in
      let st' := fresh "st" in
      let Hl := fresh "Hl" in
      pose proof (R_line st) as Hl;
      destruct (linenumber g st) as [n st']; cbn [snd] in Hl;
      cbv beta iota zeta
  end.

Ltac trace_done :=
  first [ apply R_refl | eassumption
        | eapply R_trans; [eassumption | trace_done] ].

Lemma add_numbered_trace {A : Type} (add : A -> string -> A)
    (lines : list string) :
  forall (acc : A) (st : state), R st (snd (add_numbered add g lines acc st)).
Proof.
  induction lines as [|line rest IH]; intros acc st.
  - apply R_refl.
  - cbn [add_numbered]. trace_line.
    match goal with
    | |- R _ (snd (add_numbered _ _ _ ?a ?s)) => pose proof (IH a s)
    end.
    trace_done.
Qed.

Ltac trace_add_numbered :=
  match goal with
  | |- context [add_numbered ?add g ?lines ?acc ?st] =>
      let x := fresh "acc" in
      let st' := fresh "st" in
      let Ha := fresh "Ha" in
      pose proof (add_numbered_trace add lines acc st) as Ha;
      destruct (add_numbered add g lines acc st) as [x st']; cbn [snd] in Ha;
      cbv beta iota zeta
  end.

Lemma tool_change_trace (c : command) (l l' : local) (st st' : state) :
  tool_change g c l st = Ok (l', st') -> R st st'.
Proof.
  unfold tool_change. trace_line. trace_add_numbered. trace_line.
  destruct (Parameters c !! "T") as [t|]; [|discriminate].
  destruct (num_int t) as [n'|]; run; [|discriminate].
  destruct (USE_TLO g); [trace_line|];
    intros Heq; inversion Heq; subst; trace_done.
Qed.

Lemma emit_line_trace (outstring : list string) (o o' : outbuf)
    (st st' : state) :
  emit_line g outstring o st = Ok (o', st') -> R st st'.
Proof.
  unfold emit_line.
  destruct outstring as [|w0 ws].
  { intros Heq. inversion Heq. subst. apply R_refl. }
  destruct (OUTPUT_LINE_NUMBERS g) eqn:Hnum.
  - destruct (first_char w0) as [c0|]; run; [|discriminate].
    destruct (Ascii.eqb c0 paren); [|trace_line]; run;
      (destruct (finish_line _) as [o1|]; run; [|discriminate]);
      intros Heq; inversion Heq; subst; trace_done.
  - run. destruct (finish_line _) as [o1|]; run; [|discriminate].
    intros Heq. inversion Heq. subst. apply R_refl.
Qed.

Lemma tap_rewrite_trace (c : command) (l l' : local) (st st' : state) :
  (forall n s, R s (set_tapSpeed n s)) ->
  tap_rewrite g c l st = Ok (l', st') -> R st st'.
Proof.
  intros R_tap. unfold tap_rewrite. trace_line.
  destruct (tap_words g true (currLocation l) c ["X"; "Y"] "") as [xy|];
    run; [|discriminate].
  destruct (String.eqb xy ""); [|trace_line]; cbv beta iota zeta;
    (destruct (Parameters c !! "S") as [s|];
     [destruct (num_int s) as [n'|]; run; [|discriminate];
      match goal with
      | |- context [set_tapSpeed n' ?s0] => pose proof (R_tap n' s0)
      end
     |run];
     (destruct (tap_words g true (currLocation l) c ["Z"; "R"] xy) as [zr|];
      run; [|discriminate]);
     (destruct (tap_words g false (currLocation l) c ["F"; "P"; "Q"] zr)
        as [fpq|]; run; [|discriminate]);
     repeat trace_line;
     intros Heq; inversion Heq; subst; trace_done).
Qed.

(** One round of the loop, for an object that assigns [tapSpeed] only if
    it may tap. *)
Lemma parse_command_trace (pathobj : pathobj) (nextcommand : string)
    (c : command) (l l' : local) (st st' : state) :
  (may_tap pathobj = true -> forall n s, R s (set_tapSpeed n s)) ->
  parse_command g pathobj nextcommand c l st = Ok (l', st') ->
  R st st'.
Proof.
  intros R_tap. unfold parse_command.
  destruct ((obj_Label pathobj =? "Fixture") && (Name c =? "G0")).
  { intros Heq. inversion Heq. subst. apply R_refl. }
  destruct (if (Name c =? "M03") || (Name c =? "M3")
            then is_tap_shape pathobj else Ok false) as [[|]|e] eqn:Htap;
    run; [| |discriminate].
  { destruct (obj_SpindleSpeed pathobj) as [s|]; [|discriminate].
    destruct (num_int s) as [n'|]; run; [|discriminate].
    intros Heq. inversion Heq. subst. apply R_tap.
    destruct ((Name c =? "M03") || (Name c =? "M3")); [|discriminate].
    unfold is_tap_shape in Htap. unfold may_tap.
    destruct (obj_Tool pathobj) as [shape|]; [|discriminate].
    assert (Hshape : String.eqb shape "tap" = true) by congruence.
    now rewrite Hshape. }
  destruct (((Name c =? "G81") || (Name c =? "G83")) && is_tap_tool pathobj)
    eqn:Hdrill.
  { apply tap_rewrite_trace, R_tap. unfold may_tap.
    apply andb_true_iff in Hdrill as [_ ->]. apply orb_true_r. }
  destruct (pop0_modal g (Name c) (lastcommand l)) as [outstring ->]. run.
  destruct ((Name c =? "G80")
            && bool_decide (lastcommand l = Some nextcommand)).
  { intros Heq. inversion Heq. subst. apply R_refl. }
  destruct (first_char (Name c)) as [c0|]; run; [|discriminate].
  destruct ((c0 =? paren)%char && negb (OUTPUT_COMMENTS g)).
  { intros Heq. inversion Heq. subst. apply R_refl. }
  destruct (param_words g (currLocation l) c params) as [words|];
    run; [|discriminate].
  destruct (Name c =? "M6"); [apply tool_change_trace|].
  destruct (if Name c =? "message" then _ else _) as [[o outstring']|];
    run; [|discriminate].
  destruct (emit_line g outstring' o st) as [[o' st1]|] eqn:Hemit;
    run; [|discriminate].
  apply emit_line_trace in Hemit.
  intros Heq. inversion Heq. subst. exact Hemit.
Qed.

Lemma parse_commands_trace (pathobj : pathobj) (commands : list command) :
  (may_tap pathobj = true -> forall n s, R s (set_tapSpeed n s)) ->
  forall (l l' : local) (st st' : state),
    parse_commands g pathobj commands l st = Ok (l', st') -> R st st'.
Proof.
  intros R_tap.
  induction commands as [|c rest IH]; intros l l' st st'.
  - intros Heq. inversion Heq. subst. apply R_refl.
  - cbn [parse_commands].
    destruct (parse_command g pathobj _ c l st) as [[l1 st1]|] eqn:Hc;
      run; [|discriminate].
    intros Hrest. apply IH in Hrest.
    apply parse_command_trace in Hc; [|exact R_tap].
    trace_done.
Qed.

(** A leaf: an object without [Group]. *)
Lemma parse_leaf_trace (pathobj : pathobj) (st st' : state) (r : outbuf) :
  obj_Group pathobj = None ->
  (may_tap pathobj = true -> forall n s, R s (set_tapSpeed n s)) ->
  parse g pathobj st = Ok (r, st') -> R st st'.
Proof.
  destruct pathobj as [name label active base coolant cycle group path tool
                         speed controller].
  cbn [obj_Group]. intros -> R_tap. cbn [parse].
  destruct path as [commands|].
  - destruct (parse_commands g _ commands initial_local st)
      as [[l1 st1]|] eqn:Hcs; run; [|discriminate].
    apply parse_commands_trace in Hcs; [|exact R_tap].
    intros Heq. inversion Heq. subst. exact Hcs.
  - intros Heq. inversion Heq. subst. apply R_refl.
Qed.

Hypothesis R_tap : forall n st, R st (set_tapSpeed n st).

Lemma parse_trace :
  forall (pathobj : pathobj) (st st' : state) (r : outbuf),
    parse g pathobj st = Ok (r, st') -> R st st'.
Proof.
  fix IH 1. intros [name label active base coolant cycle group path tool
                      speed controller] st st' r.
  destruct group as [ps|].
  - cbn [parse]. generalize "" at 1. revert st.
    induction ps as [|p ps IHps]; intros st text.
    + intros Heq. inversion Heq. subst. apply R_refl.
    + destruct (parse g p st) as [[r1 st1]|] eqn:Hp; run; [|discriminate].
      destruct (str_add text r1) as [text1|]; run; [|discriminate].
      intros Hrest. apply IHps in Hrest. apply IH in Hp. trace_done.
  - apply parse_leaf_trace; [reflexivity|]. intros _. exact R_tap.
Qed.

Lemma export_operation_trace (obj : pathobj) (gcode gcode' : string)
    (st st' : state) :
  export_operation g obj gcode st = Ok (gcode', st') -> R st st'.
Proof.
  unfold export_operation. trace_add_numbered.
  destruct (String.eqb (coolant_mode obj) "Flood"); [trace_line|];
    (destruct (String.eqb (coolant_mode obj) "Mist"); [trace_line|]);
    cbv beta iota zeta;
    (match goal with
     | |- context [parse g obj ?s] =>
         destruct (parse g obj s) as [[r stp]|] eqn:Hp
     end; run; [|discriminate];
     apply parse_trace in Hp;
     destruct (str_add _ r) as [gcode1|]; run; [|discriminate];
     trace_add_numbered;
     destruct (negb (String.eqb (coolant_mode obj) "None"));
     [trace_line|];
     intros Heq; inversion Heq; subst; trace_done).
Qed.

Lemma export_objects_trace (objectslist : list pathobj) :
  forall (gcode gcode' : string) (st st' : state),
    export_objects g objectslist gcode st = Ok (gcode', st') -> R st st'.
Proof.
  induction objectslist as [|obj rest IH]; intros gcode gcode' st st'.
  - intros Heq. inversion Heq. subst. apply R_refl.
  - cbn [export_objects]. destruct (inactive obj); [apply IH|].
    destruct (export_operation g obj gcode st) as [[gcode1 st1]|] eqn:Hop;
      run; [|discriminate].
    intros Hrest. apply IH in Hrest. apply export_operation_trace in Hop.
    trace_done.
Qed.

Lemma generate_trace (objectslist : list pathobj) (st st' : state)
    (r : option string) (g' : settings) :
  generate g st objectslist = Ok (r, g', st') -> R st st'.
Proof.
  unfold generate.
  destruct (negb (forallb has_Path objectslist)).
  { intros Heq. inversion Heq. subst. apply R_refl. }
  trace_add_numbered. trace_line.
  destruct objectslist as [|obj rest]; [discriminate|].
  match goal with
  | |- context [export_objects g (obj :: rest) ?t ?s] =>
      destruct (export_objects g (obj :: rest) t s) as [[gcode1 sto]|]
        eqn:Hobjs
  end; run; [|discriminate].
  apply export_objects_trace in Hobjs.
  trace_add_numbered.
  intros Heq. inversion Heq. subst. trace_done.
Qed.

End Trace.

Lemma whole_steps_refl (st : state) : whole_steps st st.
Proof. exists 0. lia. Qed.

Lemma whole_steps_trans (a b c : state) :
  whole_steps a b -> whole_steps b c -> whole_steps a c.
Proof. intros (j & Hj & Hab) (k & Hk & Hbc). exists (j + k). lia. Qed.

Lemma whole_steps_linenumber (g : settings) (st : state) :
  whole_steps st (snd (linenumber g st)).
Proof.
  unfold linenumber. destruct (OUTPUT_LINE_NUMBERS g); cbn [snd].
  - exists 1. cbn [LINENR]. lia.
  - apply whole_steps_refl.
Qed.

Lemma whole_steps_set_tapSpeed (n : Z) (st : state) :
  whole_steps st (set_tapSpeed n st).
Proof. exists 0. cbn. lia. Qed.

Section StateFacts.
Context `{NumLib} `{Host}.

(** X9.  Whatever [export] does and returns, it leaves the line counter
    a whole number of steps of five above where it found it: the counter is
    never reset, never lowered and never moved by another amount. *)
Theorem export_counts_in_fives (g0 g : settings) (st0 st : state)
    (objectslist : list pathobj) (filename argstring : string)
    (r : option string) :
  export g0 st0 objectslist filename argstring = Ok (r, g, st) ->
  whole_steps st0 st.
Proof.
  intros Hexport.
  destruct (processArguments argstring g0) as [[ok g1]|e] eqn:Hargs.
  - destruct ok.
    + rewrite export_generate, Hargs in Hexport. cbn in Hexport.
      apply (generate_trace g1 whole_steps whole_steps_refl whole_steps_trans
               (whole_steps_linenumber g1) whole_steps_set_tapSpeed)
        in Hexport.
      exact Hexport.
    + unfold export in Hexport. rewrite Hargs in Hexport.
      inversion Hexport. subst. apply whole_steps_refl.
  - unfold export in Hexport. rewrite Hargs in Hexport. discriminate.
Qed.

(** X10.  An operation without children whose tool is no tap and whose
    controller holds no tap leaves the carried tap speed as it found it,
    whatever its commands: a spindle start or a drill cycle assigns
    [tapSpeed] for a tap only. *)
Theorem untapped_operation_keeps_tapSpeed (g : settings) (pathobj : pathobj)
    (st st' : state) (r : outbuf) :
  obj_Group pathobj = None ->
  may_tap pathobj = false ->
  parse g pathobj st = Ok (r, st') ->
  tapSpeed st' = tapSpeed st.
Proof.
  intros Hleaf Hnotap Hparse. symmetry.
  apply (parse_leaf_trace g (fun a b => tapSpeed a = tapSpeed b))
    with (pathobj := pathobj) (r := r); try assumption.
  - reflexivity.
  - intros a b c. congruence.
  - intros s. unfold linenumber. now destruct (OUTPUT_LINE_NUMBERS g).
  - rewrite Hnotap. discriminate.
Qed.

End StateFacts.

(** ** The letters the translator reads *)

Section Letters.
Context `{NumLib}.

Ltac in_params := cbn; repeat (first [left; reflexivity | right]).
Ltac sub_params := repeat (constructor 2; [in_params|]); constructor 1.

Lemma agree_update (c1 c2 : command) (cur1 cur2 : gmap string num) :
  same_known c1 c2 -> agree cur1 cur2 ->
  agree (update (Parameters c1) cur1) (update (Parameters c2) cur2).
Proof.
  intros [_ Hp] Ha p Hin. unfold update.
  rewrite !lookup_union, (Hp p Hin), (Ha p Hin). reflexivity.
Qed.

Lemma param_word_alike (g : settings) (cur1 cur2 : gmap string num)
    (c1 c2 : command) (p : string) :
  same_known c1 c2 -> agree cur1 cur2 -> In p params ->
  param_word g cur1 c1 p = param_word g cur2 c2 p.
Proof.
  intros [Hn Hp] Ha Hin. unfold param_word, unchanged.
  now rewrite (Hp p Hin), (Ha p Hin), Hn.
Qed.

Lemma param_words_alike (g : settings) (cur1 cur2 : gmap string num)
    (c1 c2 : command) (letters : list string) :
  same_known c1 c2 -> agree cur1 cur2 ->
  Forall (fun p => In p params) letters ->
  param_words g cur1 c1 letters = param_words g cur2 c2 letters.
Proof.
  intros Hc Ha Hin. induction Hin as [|p rest Hp _ IH]; [reflexivity|].
  cbn [param_words]. now rewrite (param_word_alike g cur1 cur2 c1 c2 p), IH.
Qed.

Lemma tap_words_alike (g : settings) (suppress : bool)
    (cur1 cur2 : gmap string num) (c1 c2 : command) (letters : list string) :
  same_known c1 c2 -> agree cur1 cur2 ->
  Forall (fun p => In p params) letters ->
  forall paramstring : string,
    tap_words g suppress cur1 c1 letters paramstring
    = tap_words g suppress cur2 c2 letters paramstring.
Proof.
  intros [Hn Hp] Ha Hin.
  induction Hin as [|p rest Hin _ IH]; intros paramstring; [reflexivity|].
  cbn [tap_words]. unfold unchanged. rewrite (Hp p Hin), (Ha p Hin).
  destruct (Parameters c2 !! p) as [v|]; [|apply IH].
  destruct (suppress && _); [apply IH|].
  destruct (length_word g v) as [w|]; run; [apply IH | reflexivity].
Qed.

Ltac both_line :=
  match goal with
  | |- context [linenumber ?g ?s] =>
      let n := fresh "n" in
      let st' := fresh "st" in
      destruct (linenumber g s) as [n st']; cbv beta iota zeta
  end.

Lemma same_local_set_out (o : outbuf) (l1 l2 : local) :
  same_local l1 l2 -> same_local (set_out o l1) (set_out o l2).
Proof. intros (_ & Hlast & Ha). repeat split; assumption. Qed.

Lemma tap_rewrite_alike (g : settings) (c1 c2 : command) (l1 l2 : local)
    (st : state) :
  same_known c1 c2 -> same_local l1 l2 ->
  alike (tap_rewrite g c1 l1 st) (tap_rewrite g c2 l2 st).
Proof.
  intros Hc Hl. pose proof Hc as [Hn Hp]. pose proof Hl as (Ho & Hlast & Ha).
  unfold tap_rewrite. rewrite <- Ho. both_line.
  rewrite <- (tap_words_alike g true _ _ c1 c2 ["X"; "Y"] Hc Ha)
    by sub_params.
  destruct (tap_words g true (currLocation l1) c1 ["X"; "Y"] "") as [xy|];
    run; [|reflexivity].
  rewrite <- (Hp "S") by in_params.
  rewrite <- (tap_words_alike g true _ _ c1 c2 ["Z"; "R"] Hc Ha)
    by sub_params.
  destruct (String.eqb xy ""); [|both_line];
    (destruct (Parameters c1 !! "S") as [s|];
     [destruct (num_int s) as [n'|]; run; [|reflexivity]|run];
     (destruct (tap_words g true (currLocation l1) c1 ["Z"; "R"] xy) as [zr|];
      run; [|reflexivity]);
     (rewrite <- (tap_words_alike g false _ _ c1 c2 ["F"; "P"; "Q"] Hc Ha)
        by sub_params);
     (destruct (tap_words g false (currLocation l1) c1 ["F"; "P"; "Q"] zr)
        as [fpq|]; run; [|reflexivity]);
     repeat both_line;
     (split; [apply same_local_set_out, Hl | reflexivity])).
Qed.

Lemma tool_change_alike (g : settings) (c1 c2 : command) (l1 l2 : local)
    (st : state) :
  same_known c1 c2 -> same_local l1 l2 ->
  alike (tool_change g c1 l1 st) (tool_change g c2 l2 st).
Proof.
  intros [Hn Hp] Hl. pose proof Hl as (Ho & Hlast & Ha).
  unfold tool_change. rewrite <- Ho. both_line.
  destruct (add_numbered _ _ _ _ _) as [o1 sta]. both_line.
  rewrite <- (Hp "T") by in_params.
  destruct (Parameters c1 !! "T") as [t|]; [|reflexivity].
  destruct (num_int t) as [n'|]; run; [|reflexivity].
  destruct (USE_TLO g); [both_line|];
    (split; [apply same_local_set_out, Hl | reflexivity]).
Qed.

Lemma parse_command_alike (g : settings) (pathobj : pathobj)
    (nextcommand : string) (c1 c2 : command) (l1 l2 : local) (st : state) :
  same_known c1 c2 -> same_local l1 l2 ->
  alike (parse_command g pathobj nextcommand c1 l1 st)
        (parse_command g pathobj nextcommand c2 l2 st).
Proof.
  intros Hc Hl. pose proof Hc as [Hn Hp]. pose proof Hl as (Ho & Hlast & Ha).
  assert (Hl' : same_local
            {| out := out l1; lastcommand := Some (Name c1);
               currLocation := update (Parameters c1) (currLocation l1) |}
            {| out := out l1; lastcommand := Some (Name c1);
               currLocation := update (Parameters c2) (currLocation l2) |}).
  { repeat split. cbn. now apply agree_update. }
  unfold parse_command. rewrite <- Hn, <- Hlast, <- Ho.
  rewrite <- (param_words_alike g _ _ c1 c2 params Hc Ha)
    by (apply List.Forall_forall; auto).
  destruct ((obj_Label pathobj =? "Fixture") && (Name c1 =? "G0")).
  { split; [exact Hl | reflexivity]. }
  destruct (if (Name c1 =? "M03") || (Name c1 =? "M3")
            then is_tap_shape pathobj else Ok false) as [[|]|e];
    run; [| |reflexivity].
  { destruct (obj_SpindleSpeed pathobj) as [s|]; [|reflexivity].
    destruct (num_int s) as [n'|]; run; [|reflexivity].
    split; [exact Hl | reflexivity]. }
  destruct (((Name c1 =? "G81") || (Name c1 =? "G83"))
            && is_tap_tool pathobj);
    [now apply tap_rewrite_alike|].
  destruct (pop0_modal g (Name c1) (lastcommand l1)) as [outstring ->]. run.
  destruct ((Name c1 =? "G80")
            && bool_decide (lastcommand l1 = Some nextcommand)).
  { split; [exact Hl | reflexivity]. }
  destruct (first_char (Name c1)) as [c0|]; run; [|reflexivity].
  destruct ((c0 =? paren)%char && negb (OUTPUT_COMMENTS g)).
  { split; [exact Hl | reflexivity]. }
  destruct (param_words g (currLocation l1) c1 params) as [words|];
    run; [|reflexivity].
  destruct (Name c1 =? "M6"); [now apply tool_change_alike|].
  cbn [out].
  destruct (if Name c1 =? "message" then _ else _) as [[o outstring']|];
    run; [|reflexivity].
  destruct (emit_line g outstring' o st) as [[o' st1]|]; run; [|reflexivity].
  split; [apply same_local_set_out, Hl' | reflexivity].
Qed.

Lemma parse_commands_alike (g : settings) (pathobj : pathobj)
    (cs1 cs2 : list command) :
  Forall2 same_known cs1 cs2 ->
  forall (l1 l2 : local) (st : state),
    same_local l1 l2 ->
    alike (parse_commands g pathobj cs1 l1 st)
          (parse_commands g pathobj cs2 l2 st).
Proof.
  induction 1 as [|c1 c2 rest1 rest2 Hc Hrest IH]; intros l1 l2 st Hl.
  - split; [exact Hl | reflexivity].
  - cbn [parse_commands].
    assert (Hnext : match rest2 with [] => "" | c' :: _ => Name c' end
                    = match rest1 with [] => "" | c' :: _ => Name c' end).
    { destruct Hrest as [|? ? ? ? [Hn _] _]; [reflexivity | now symmetry]. }
    rewrite Hnext.
    pose proof (parse_command_alike g pathobj
                  match rest1 with [] => "" | c' :: _ => Name c' end
                  c1 c2 l1 l2 st Hc Hl) as Hstep.
    destruct (parse_command g pathobj _ c1 l1 st) as [[l1' st1]|e1],
             (parse_command g pathobj _ c2 l2 st) as [[l2' st2]|e2];
      cbn [alike] in Hstep; try contradiction; run.
    + destruct Hstep as [Hl' <-]. now apply IH.
    + exact Hstep.
Qed.

Lemma parse_commands_with_Path (g : settings) (path : list command)
    (pathobj : pathobj) (commands : list command) :
  forall (l : local) (st : state),
    parse_commands g (with_Path path pathobj) commands l st
    = parse_commands g pathobj commands l st.
Proof.
  induction commands as [|c rest IH]; intros l st; [reflexivity|].
  cbn [parse_commands].
  change (parse_command g (with_Path path pathobj))
    with (parse_command g pathobj).
  destruct (parse_command g pathobj _ c l st) as [[l1 st1]|]; run;
    [apply IH | reflexivity].
Qed.

(** A leaf is translated from its commands alone. *)
Lemma parse_leaf_with_Path (g : settings) (commands : list command)
    (pathobj : pathobj) (st : state) :
  obj_Group pathobj = None ->
  parse g (with_Path commands pathobj) st
  = '(l, st) ← parse_commands g pathobj commands initial_local st;
    Ok (out l, st).
Proof.
  destruct pathobj as [name label active base coolant cycle group path tool
                         speed controller].
  cbn [obj_Group]. intros ->.
  rewrite <- (parse_commands_with_Path g commands _ commands).
  reflexivity.
Qed.

(** X11.  Only the letters of [params] are read from a command: two
    paths whose commands have, one by one, the same names and the same
    values for these letters give the same text, the same exception and the
    same state, whatever other parameters the commands carry. *)
Theorem unknown_letters_are_ignored (g : settings) (pathobj : pathobj)
    (cs1 cs2 : list command) (st : state) :
  Forall2 same_known cs1 cs2 ->
  parse g (with_Path cs1 pathobj) st = parse g (with_Path cs2 pathobj) st.
Proof.
  intros Hcs. destruct (obj_Group pathobj) as [ps|] eqn:Hgroup.
  { destruct pathobj. cbn [obj_Group] in Hgroup. subst. reflexivity. }
  rewrite !parse_leaf_with_Path by exact Hgroup.
  assert (Hinit : same_local initial_local initial_local)
    by (repeat split).
  pose proof (parse_commands_alike g pathobj cs1 cs2 Hcs
                initial_local initial_local st Hinit) as Hstep.
  destruct (parse_commands g pathobj cs1 initial_local st) as [[l1 st1]|e1],
           (parse_commands g pathobj cs2 initial_local st) as [[l2 st2]|e2];
    cbn [alike] in Hstep; try contradiction; run.
  - destruct Hstep as [(Ho & _) <-]. now rewrite Ho.
  - now rewrite Hstep.
Qed.

(** X12.  With --no-axis-modal the words written for a command do not
    depend on the commands before it: whatever the current location holds,
    the loop over [params] gives the same words. *)
Theorem no_axis_modal_forgets_location (g : settings)
    (cur1 cur2 : gmap string num) (c : command) :
  OUTPUT_DOUBLES g = true ->
  is_Some (cur1 !! "F") -> is_Some (cur2 !! "F") ->
  param_words g cur1 c params = param_words g cur2 c params.
Proof.
  intros Hdoubles [f1 Hf1] [f2 Hf2].
  assert (Hword : forall p, param_word g cur1 c p = param_word g cur2 c p).
  { intros p. unfold param_word, unchanged. rewrite Hdoubles.
    destruct (Parameters c !! p) as [v|]; [|reflexivity].
    destruct (String.eqb_spec p "F") as [->|_].
    - rewrite Hf1, Hf2. now rewrite !orb_true_r.
    - reflexivity. }
  induction params as [|p rest IH]; [reflexivity|].
  cbn [param_words]. now rewrite Hword, IH.
Qed.

(** A rapid move of an object that is not the fixture goes through the
    general rule, which ends by updating the current location with the
    parameters of the command. *)
Lemma rapid_is_recorded (g : settings) (pathobj : pathobj)
    (nextcommand : string) (c : command) (l l' : local) (st st' : state) :
  Name c = "G0" \/ Name c = "G00" ->
  obj_Label pathobj <> "Fixture" ->
  parse_command g pathobj nextcommand c l st = Ok (l', st') ->
  currLocation l' = update (Parameters c) (currLocation l).
Proof.
  intros Hname Hlabel. unfold parse_command.
  destruct (String.eqb_spec (obj_Label pathobj) "Fixture") as [|_];
    [contradiction|].
  cbn [andb].
  destruct (pop0_modal g (Name c) (lastcommand l)) as [outstring Hpop].
  revert Hpop.
  destruct Hname as [-> | ->]; eval_eqb; run; intros ->; run;
    (destruct (param_words g (currLocation l) c params) as [words|];
     run; [|discriminate];
     destruct (emit_line g _ _ st) as [[o' st1]|]; run; [|discriminate];
     intros Heq; inversion Heq; reflexivity).
Qed.

(** X13.  The feed of a rapid move is recorded and never written.  For
    a G0 or G00 with F, on an object that is not labelled "Fixture", in a
    round of the loop that returns: the loop over the parameters gives no F
    word; the current location the round leaves holds the F of the rapid;
    and a following command with an equal F gets no F word from it either,
    unless --no-axis-modal is set. *)
Theorem rapid_feed_is_recorded_not_written (g : settings)
    (pathobj : pathobj) (nextcommand : string) (c1 c2 : command)
    (l l1 : local) (st st1 : state) (v v' : num) :
  Name c1 = "G0" \/ Name c1 = "G00" ->
  obj_Label pathobj <> "Fixture" ->
  Parameters c1 !! "F" = Some v ->
  is_Some (currLocation l !! "F") ->
  parse_command g pathobj nextcommand c1 l st = Ok (l1, st1) ->
  param_word g (currLocation l) c1 "F" = Ok None
  /\ currLocation l1 !! "F" = Some v
  /\ (OUTPUT_DOUBLES g = false ->
      Parameters c2 !! "F" = Some v' ->
      num_eqb v v' = true ->
      param_word g (currLocation l1) c2 "F" = Ok None).
Proof.
  intros Hname Hlabel Hv [old Hold] Hrun.
  assert (Hrecorded : currLocation l1 !! "F" = Some v).
  { rewrite (rapid_is_recorded g pathobj nextcommand c1 l l1 st st1)
      by assumption.
    unfold update. now apply lookup_union_Some_l. }
  split; [|split].
  - unfold param_word, unchanged. rewrite Hv, Hold. eval_eqb. run.
    destruct Hname as [-> | ->]; eval_eqb;
      destruct (num_eqb old v), (OUTPUT_DOUBLES g); reflexivity.
  - exact Hrecorded.
  - intros Hdoubles Hv' Heq. unfold param_word, unchanged.
    rewrite Hv', Hrecorded, Heq, Hdoubles.
    eval_eqb. run. reflexivity.
Qed.

Lemma parse_command_nextcommand (g : settings) (pathobj : pathobj)
    (next next' : string) (c : command) (l : local) (st : state) :
  Name c <> "G80" ->
  parse_command g pathobj next c l st = parse_command g pathobj next' c l st.
Proof.
  intros Hname. unfold parse_command.
  destruct (String.eqb_spec (Name c) "G80") as [|_]; [contradiction|].
  reflexivity.
Qed.

Lemma parse_command_inert (g : settings) (pathobj : pathobj)
    (next : string) (c : command) (l : local) (st : state) :
  inert g pathobj c = true ->
  parse_command g pathobj next c l st = Ok (l, st).
Proof.
  unfold inert, parse_command. intros Hinert.
  destruct ((obj_Label pathobj =? "Fixture") && (Name c =? "G0"));
    [reflexivity|].
  cbn [orb] in Hinert. apply andb_true_iff in Hinert as [Hparen Hoff].
  destruct (Name c) as [|x name]; [discriminate|].
  apply Ascii.eqb_eq in Hparen. subst x. eval_eqb. run.
  destruct (MODAL g && _); cbn [pop0]; run; rewrite Hoff; reflexivity.
Qed.

(** X14.  An inert command leaves no trace: in a path without G80,
    dropping the rapids G0 of the object labelled "Fixture", and the
    comments when comments are suppressed, changes neither the text nor the
    exception nor what the following commands are compared with. *)
Theorem inert_commands_leave_no_trace (g : settings) (pathobj : pathobj)
    (commands : list command) :
  Forall (fun c => Name c <> "G80") commands ->
  forall (l : local) (st : state),
    parse_commands g pathobj
      (List.filter (fun c => negb (inert g pathobj c)) commands) l st
    = parse_commands g pathobj commands l st.
Proof.
  induction 1 as [|c rest Hc _ IH]; intros l st; [reflexivity|].
  cbn [List.filter parse_commands].
  destruct (inert g pathobj c) eqn:Hinert; cbn [negb].
  - rewrite (parse_command_inert g pathobj _ c l st Hinert). run. apply IH.
  - cbn [parse_commands].
    rewrite (parse_command_nextcommand g pathobj _
               match rest with [] => "" | c' :: _ => Name c' end c l st Hc).
    destruct (parse_command g pathobj _ c l st) as [[l1 st1]|]; run;
      [apply IH | reflexivity].
Qed.

End Letters.

(** ** The text of an operation *)

Lemma replace_double_space_cons (c : ascii) (r : string) :
  replace_double_space (String c r)
  = if Ascii.eqb c " " then
      match r with
      | String d r' =>
          if Ascii.eqb d " " then String " " (replace_double_space r')
          else String c (replace_double_space r)
      | EmptyString => String c EmptyString
      end
    else String c (replace_double_space r).
Proof.
  destruct c as [[] [] [] [] [] [] [] []]; try reflexivity.
  destruct r as [|d r']; [reflexivity|].
  destruct d as [[] [] [] [] [] [] [] []]; reflexivity.
Qed.

(** Squeezing blanks keeps the line feed that closes a text. *)
Lemma replace_double_space_LF (s : string) :
  exists t0 : string, replace_double_space (s +:+ LF) = t0 +:+ LF.
Proof.
  enough (Hboth : (exists t0, replace_double_space (s +:+ LF) = t0 +:+ LF)
                  /\ forall c, exists t0,
                       replace_double_space (String c s +:+ LF) = t0 +:+ LF)
    by apply Hboth.
  induction s as [|x s [IHs IHc]].
  - split; [exists ""; reflexivity|].
    intros c. exists (String c ""). rewrite append_cons.
    rewrite replace_double_space_cons.
    destruct (Ascii.eqb c " "); reflexivity.
  - split; [apply IHc|].
    intros c. rewrite !append_cons, replace_double_space_cons.
    rewrite <- append_cons.
    destruct (Ascii.eqb c " ").
    + destruct (Ascii.eqb x " ").
      * destruct IHs as [t0 ->]. now exists (String " " t0).
      * destruct (IHc x) as [t0 ->]. now exists (String c t0).
    + destruct (IHc x) as [t0 ->]. now exists (String c t0).
Qed.

Lemma whole_lines_line (a s : string) : whole_lines (a +:+ s +:+ LF).
Proof. right. exists (a +:+ s). now rewrite append_assoc. Qed.

Lemma whole_lines_app (a b : string) :
  whole_lines a -> whole_lines b -> whole_lines (a +:+ b).
Proof.
  intros Ha [-> | [b0 ->]].
  - now rewrite append_empty_r.
  - apply whole_lines_line.
Qed.

Section Text.
Context `{NumLib}.

Lemma add_numbered_text (g : settings) (lines : list string) :
  forall (t : string) (st : state),
    exists t' : string,
      fst (add_numbered out_add g lines (OStr t) st) = OStr t'.
Proof.
  induction lines as [|line rest IH]; intros t st; [now exists t|].
  cbn [add_numbered]. destruct (linenumber g st) as [n st1].
  cbn [out_add]. apply IH.
Qed.

Lemma fold_out_add_text (f : string -> string) (ws : list string) :
  forall t : string,
    exists t' : string,
      fold_left (fun o w => out_add o (f w)) ws (OStr t) = OStr t'.
Proof.
  induction ws as [|w ws IH]; intros t; [now exists t|].
  cbn [fold_left out_add]. apply IH.
Qed.

Lemma emit_line_text (g : settings) (outstring : list string) (t : string)
    (o' : outbuf) (st st' : state) :
  whole_lines t ->
  emit_line g outstring (OStr t) st = Ok (o', st') ->
  exists t' : string, o' = OStr t' /\ whole_lines t'.
Proof.
  intros Hw. unfold emit_line.
  destruct outstring as [|w0 ws].
  { intros Heq. inversion Heq. subst. eauto. }
  destruct (if OUTPUT_LINE_NUMBERS g then _ else _) as [[ws' st1]|];
    run; [|discriminate].
  destruct (fold_out_add_text (fun w => upper w +:+ COMMAND_SPACE) ws' t)
    as [t1 ->].
  cbn [finish_line]. run. intros Heq. inversion Heq. subst.
  destruct (replace_double_space_LF (strip t1)) as [t0 ->].
  exists (t0 +:+ LF). split; [reflexivity|]. right. now exists t0.
Qed.

Lemma tool_change_text (g : settings) (c : command) (l l' : local)
    (t : string) (st st' : state) :
  out l = OStr t ->
  tool_change g c l st = Ok (l', st') ->
  (exists t' : string, out l' = OStr t' /\ whole_lines t')
  /\ lastcommand l' = lastcommand l.
Proof.
  intros Ho. unfold tool_change. rewrite Ho.
  destruct (linenumber g st) as [n1 st1]. cbn [out_add].
  match goal with
  | |- context [add_numbered out_add g ?lines (OStr ?x) ?s] =>
      destruct (add_numbered_text g lines x s) as [t1 Ht1];
      destruct (add_numbered out_add g lines (OStr x) s) as [o1 st2]
  end.
  cbn [fst] in Ht1. subst o1.
  destruct (linenumber g st2) as [n2 st3].
  destruct (Parameters c !! "T") as [tool|]; [|discriminate].
  destruct (num_int tool) as [n'|]; run; [|discriminate].
  cbn [out_add].
  destruct (USE_TLO g); [destruct (linenumber g st3) as [n3 st4]|];
    intros Heq; inversion Heq; subst; cbn [set_out out lastcommand];
    (split; [|reflexivity]); eexists; (split; [reflexivity|]);
    rewrite <- ?append_assoc; right; eexists; reflexivity.
Qed.

Lemma tap_rewrite_text (g : settings) (c : command) (l l' : local)
    (t : string) (st st' : state) :
  out l = OStr t ->
  tap_rewrite g c l st = Ok (l', st') ->
  (exists t' : string, out l' = OStr t' /\ whole_lines t')
  /\ lastcommand l' = lastcommand l.
Proof.
  intros Ho. unfold tap_rewrite. rewrite Ho.
  destruct (linenumber g st) as [n1 st1]. cbn [out_add].
  destruct (tap_words g true (currLocation l) c ["X"; "Y"] "") as [xy|];
    run; [|discriminate].
  destruct (String.eqb xy ""); [|destruct (linenumber g st1) as [n2 st2]];
    cbv beta iota zeta; cbn [out_add];
    (destruct (Parameters c !! "S") as [sv|];
     [destruct (num_int sv) as [n'|]; run; [|discriminate]|run];
     (destruct (tap_words g true (currLocation l) c ["Z"; "R"] xy) as [zr|];
      run; [|discriminate]);
     (destruct (tap_words g false (currLocation l) c ["F"; "P"; "Q"] zr)
        as [fpq|]; run; [|discriminate]);
     repeat match goal with
     | |- context [linenumber g ?s] =>
         let n := fresh "n" in
         let s' := fresh "st" in
         destruct (linenumber g s) as [n s']
     end;
     intros Heq; inversion Heq; subst; cbn [set_out out lastcommand];
     (split; [|reflexivity]); eexists; (split; [reflexivity|]);
     rewrite <- ?append_assoc; right; eexists; reflexivity).
Qed.

Lemma pop0_modal_cases (g : settings) (command : string)
    (last : option string) :
  exists outstring : list string,
    (if MODAL g && bool_decide (Some command = last)
     then pop0 [command] else Ok [command]) = Ok outstring
    /\ (outstring = [command] \/ last = Some command).
Proof.
  destruct (MODAL g); cbn [andb]; [|eauto].
  destruct (bool_decide (Some command = last)) eqn:Hlast; [|eauto].
  apply bool_decide_eq_true_1 in Hlast. cbn [pop0]. eauto.
Qed.

Lemma parse_command_tidy (g : settings) (pathobj : pathobj)
    (nextcommand : string) (c : command) (l l' : local) (st st' : state) :
  tidy g l ->
  parse_command g pathobj nextcommand c l st = Ok (l', st') ->
  tidy g l'.
Proof.
  intros Htidy. pose proof Htidy as [(t & Ho & Hw) Hlast].
  unfold parse_command.
  destruct ((obj_Label pathobj =? "Fixture") && (Name c =? "G0")).
  { intros Heq. inversion Heq. now subst. }
  destruct (if (Name c =? "M03") || (Name c =? "M3")
            then is_tap_shape pathobj else Ok false) as [[|]|e];
    run; [| |discriminate].
  { destruct (obj_SpindleSpeed pathobj) as [s|]; [|discriminate].
    destruct (num_int s) as [n'|]; run; [|discriminate].
    intros Heq. inversion Heq. now subst. }
  destruct (((Name c =? "G81") || (Name c =? "G83")) && is_tap_tool pathobj).
  { intros Htap. apply (tap_rewrite_text g c l l' t) in Htap as [Ht' Hl'];
      [|exact Ho].
    split; [exact Ht'|]. now rewrite Hl'. }
  destruct (pop0_modal_cases g (Name c) (lastcommand l))
    as (outstring & -> & Hpop). run.
  destruct ((Name c =? "G80")
            && bool_decide (lastcommand l = Some nextcommand)).
  { intros Heq. inversion Heq. now subst. }
  destruct (first_char (Name c)) as [c0|]; run; [|discriminate].
  destruct ((c0 =? paren)%char && negb (OUTPUT_COMMENTS g)).
  { intros Heq. inversion Heq. now subst. }
  destruct (param_words g (currLocation l) c params) as [words|];
    run; [|discriminate].
  destruct (String.eqb_spec (Name c) "M6") as [HM6|_].
  { intros Htool.
    apply (tool_change_text g c _ l' t) in Htool as [Ht' Hl'];
      [|exact Ho].
    split; [exact Ht'|]. rewrite Hl'. cbn [lastcommand]. rewrite HM6.
    discriminate. }
  cbn [out].
  destruct (String.eqb_spec (Name c) "message") as [Hmsg|Hother].
  - destruct (OUTPUT_COMMENTS g) eqn:Hcomments; cbn [negb]; run.
    + destruct (pop0 (outstring ++ words)) as [rest|]; run; [|discriminate].
      rewrite Ho.
      destruct (emit_line g rest (OStr t) st) as [[o' st1]|] eqn:Hemit;
        run; [|discriminate].
      apply emit_line_text in Hemit; [|exact Hw].
      intros Heq. inversion Heq. subst. split; [exact Hemit|congruence].
    + destruct Hpop as [-> | Hrepeat].
      * cbn [app]. rewrite emit_line_list by (rewrite Hmsg; discriminate).
        discriminate.
      * exfalso. apply Hlast; [reflexivity|]. now rewrite Hrepeat, Hmsg.
  - run. rewrite Ho.
    destruct (emit_line g (outstring ++ words) (OStr t) st)
      as [[o' st1]|] eqn:Hemit; run; [|discriminate].
    apply emit_line_text in Hemit; [|exact Hw].
    intros Heq. inversion Heq. subst. split; [exact Hemit|].
    intros _. cbn [set_out lastcommand]. congruence.
Qed.

Lemma parse_commands_tidy (g : settings) (pathobj : pathobj)
    (commands : list command) :
  forall (l l' : local) (st st' : state),
    tidy g l ->
    parse_commands g pathobj commands l st = Ok (l', st') ->
    tidy g l'.
Proof.
  induction commands as [|c rest IH]; intros l l' st st' Htidy.
  - intros Heq. inversion Heq. now subst.
  - cbn [parse_commands].
    destruct (parse_command g pathobj _ c l st) as [[l1 st1]|] eqn:Hc;
      run; [|discriminate].
    apply IH. exact (parse_command_tidy g pathobj _ c l l1 st st1 Htidy Hc).
Qed.

Lemma tidy_initial (g : settings) : tidy g initial_local.
Proof.
  split; [exists ""; split; [reflexivity | now left] | discriminate].
Qed.

(** X15.  Whenever [parse] returns, it returns a string, never the list
    the message rule can bind, and the string is made of whole lines: it is
    empty or it ends with a line feed.  So the concatenations of a group and
    of [export] never raise TypeError. *)
Theorem parse_returns_whole_lines (g : settings) :
  forall (pathobj : pathobj) (st st' : state) (r : outbuf),
    parse g pathobj st = Ok (r, st') ->
    exists t : string, r = OStr t /\ whole_lines t.
Proof.
  fix IH 1. intros [name label active base coolant cycle group path tool
                      speed controller] st st' r.
  cbn [parse]. destruct group as [ps|].
  - assert (Hempty : whole_lines "") by now left.
    revert Hempty. generalize "" at 1 2. revert st.
    induction ps as [|p ps IHps]; intros st text Htext.
    + intros Heq. inversion Heq. subst. eauto.
    + destruct (parse g p st) as [[r1 st1]|] eqn:Hp; run; [|discriminate].
      apply IH in Hp as (t1 & -> & Ht1). cbn [str_add]. run.
      apply IHps. now apply whole_lines_app.
  - destruct path as [commands|].
    + destruct (parse_commands g _ commands initial_local st)
        as [[l1 st1]|] eqn:Hcs; run; [|discriminate].
      apply parse_commands_tidy in Hcs as [Ht _]; [|apply tidy_initial].
      intros Heq. inversion Heq. subst. exact Ht.
    + intros Heq. inversion Heq. subst. exists "". split; [reflexivity|].
      now left.
Qed.





Lemma str_add_prefix (text : string) (r : outbuf) :
  str_add text r = (fun t => text +:+ t) <$> str_add "" r.
Proof. destruct r; reflexivity. Qed.

Lemma children_text (g : settings) (ps : list pathobj) :
  forall (text : string) (st : state),
    (fix children (ps : list pathobj) (text : string) (st : state)
       : result (outbuf * state) :=
       match ps with
       | [] => Ok (OStr text, st)
       | p :: ps' =>
           '(r, st) ← parse g p st;
           text ← str_add text r;
           children ps' text st
       end) ps text st
    = '(t, st') ← text_of_children g ps st; Ok (OStr (text +:+ t), st').
Proof.
  induction ps as [|p ps IHps]; intros text st.
  - cbn [text_of_children]. run. now rewrite append_empty_r.
  - cbn [text_of_children].
    destruct (parse g p st) as [[r st1]|]; run; [|reflexivity].
    rewrite str_add_prefix.
    destruct (str_add "" r) as [t1|]; run; [|reflexivity].
    rewrite IHps.
    destruct (text_of_children g ps st1) as [[t2 st2]|]; run; [|reflexivity].
    now rewrite append_assoc.
Qed.

(** X17.  The text of a compound is the texts of its children, one after
    the other in the order of [Group], each child translated with the state
    the one before it left; the compound's own [Path], label and tool
    contribute nothing. *)
Theorem group_is_its_children (g : settings) (ps : list pathobj)
    (pathobj : pathobj) (st : state) :
  obj_Group pathobj = Some ps ->
  parse g pathobj st
  = '(t, st') ← text_of_children g ps st; Ok (OStr t, st').
Proof.
  destruct pathobj as [name label active base coolant cycle group path tool
                         speed controller].
  cbn [obj_Group]. intros ->. cbn [parse]. rewrite children_text.
  reflexivity.
Qed.

End Text.

(** ** The text of a job *)

Lemma join_cons (line : string) (lines : list string) :
  join (line :: lines) = line +:+ join lines.
Proof. reflexivity. Qed.

(** [splitlines(True)] cuts a text without losing a character. *)
Lemma splitlines_from_join (s : string) :
  forall cur : string, join (splitlines_from true cur s) = cur +:+ s.
Proof.
  enough (Hboth : (forall cur, join (splitlines_from true cur s) = cur +:+ s)
                  /\ forall c cur,
                       join (splitlines_from true cur (String c s))
                       = cur +:+ String c s)
    by apply Hboth.
  induction s as [|d s [IHs IHd]].
  - split.
    + intros cur. cbn [splitlines_from].
      destruct (String.eqb_spec cur "") as [->|_]; [reflexivity|].
      reflexivity.
    + intros c cur. cbn [splitlines_from]. unfold snoc.
      destruct (Ascii.eqb c CR); [|destruct (is_linebreak c)];
        cbn [splitlines_from];
        try destruct (String.eqb_spec (cur +:+ String c "") "") as [->|_];
        rewrite ?join_cons; cbn [join fold_right];
        rewrite ?append_empty_r, ?append_assoc; reflexivity.
  - split; [apply IHd|].
    intros c cur.
    change (splitlines_from true cur (String c (String d s)))
      with (if Ascii.eqb c CR then
              if Ascii.eqb d (ascii_of_nat 10) then
                snoc (snoc cur c) d :: splitlines_from true "" s
              else snoc cur c :: splitlines_from true "" (String d s)
            else if is_linebreak c then
              snoc cur c :: splitlines_from true "" (String d s)
            else splitlines_from true (snoc cur c) (String d s)).
    unfold snoc.
    destruct (Ascii.eqb c CR); [destruct (Ascii.eqb d (ascii_of_nat 10))|
                                destruct (is_linebreak c)];
      rewrite ?join_cons, ?IHs, ?IHd, ?append_assoc; reflexivity.
Qed.

Lemma splitlines_join (s : string) : join (splitlines true s) = s.
Proof. unfold splitlines. now rewrite splitlines_from_join. Qed.

Lemma add_numbered_append (g : settings) (lines : list string) :
  forall (acc : string) (st : state),
    add_numbered String.append g lines acc st
    = (acc +:+ fst (numbered g lines st), snd (numbered g lines st)).
Proof.
  unfold numbered.
  induction lines as [|line rest IH]; intros acc st; cbn [add_numbered].
  - cbn [fst snd]. now rewrite append_empty_r.
  - destruct (linenumber g st) as [n st1].
    rewrite (IH (acc +:+ n +:+ line)), (IH ("" +:+ n +:+ line)).
    cbn [fst snd]. now rewrite append_assoc.
Qed.

Lemma numbered_off (g : settings) (lines : list string) (st : state) :
  OUTPUT_LINE_NUMBERS g = false ->
  numbered g lines st = (join lines, st).
Proof.
  intros Hoff. unfold numbered.
  enough (Hacc : forall acc,
             add_numbered String.append g lines acc st
             = (acc +:+ join lines, st)) by apply Hacc.
  induction lines as [|line rest IH]; intros acc; cbn [add_numbered].
  - cbn [join fold_right]. now rewrite append_empty_r.
  - rewrite linenumber_off by exact Hoff. rewrite IH.
    cbn [join fold_right]. now rewrite append_assoc.
Qed.

Section Job.
Context `{NumLib} `{Host}.

Ltac split_line :=
  match goal with
  | |- context [linenumber ?g ?s] =>
      let n := fresh "n" in
      let st' := fresh "st" in
      destruct (linenumber g s) as [n st']; cbv beta iota zeta
  end.

Lemma export_operation_appends (g : settings) (obj : pathobj)
    (gcode : string) (st : state) :
  export_operation g obj gcode st
  = '(t, s) ← export_operation g obj "" st; Ok (gcode +:+ t, s).
Proof.
  unfold export_operation.
  rewrite !add_numbered_append. cbv beta iota zeta.
  destruct (String.eqb (coolant_mode obj) "Flood"); [split_line|];
    (destruct (String.eqb (coolant_mode obj) "Mist"); [split_line|]);
    cbv beta iota zeta;
    (match goal with
     | |- context [parse g obj ?s] =>
         destruct (parse g obj s) as [[r stp]|]
     end; run; [|reflexivity];
     destruct r as [t|items]; cbn [str_add]; run; [|reflexivity];
     rewrite !add_numbered_append; cbv beta iota zeta;
     destruct (negb (String.eqb (coolant_mode obj) "None"));
     [split_line|]; run;
     destruct (OUTPUT_COMMENTS g); cbn [andb];
     try destruct (obj_CycleTime obj);
     try destruct (negb (String.eqb (coolant_mode obj) "None"));
     rewrite ?append_assoc; reflexivity).
Qed.

Lemma export_objects_appends (g : settings) (objectslist : list pathobj) :
  forall (gcode : string) (st : state),
    export_objects g objectslist gcode st
    = '(t, s) ← export_objects g objectslist "" st; Ok (gcode +:+ t, s).
Proof.
  induction objectslist as [|obj rest IH]; intros gcode st;
    cbn [export_objects].
  - run. now rewrite append_empty_r.
  - destruct (inactive obj); [apply IH|].
    rewrite export_operation_appends.
    destruct (export_operation g obj "" st) as [[t1 st1]|]; run;
      [|reflexivity].
    rewrite (IH (gcode +:+ t1)), (IH ("" +:+ t1)).
    destruct (export_objects g rest "" st1) as [[t2 st2]|]; run;
      [|reflexivity].
    now rewrite append_assoc.
Qed.

(** X18.  The text of the operations of a job is the text of its first
    operations followed by the text of the others, translated from the state
    the first ones left: an operation never rewrites what was written before
    it, and it sees the operations before it through the module state
    alone. *)
Theorem export_objects_app (g : settings) (first others : list pathobj)
    (st : state) :
  export_objects g (first ++ others) "" st
  = '(t1, st1) ← export_objects g first "" st;
    '(t2, st2) ← export_objects g others "" st1;
    Ok (t1 +:+ t2, st2).
Proof.
  revert st. induction first as [|obj rest IH]; intros st.
  - cbn [app export_objects]. run.
    destruct (export_objects g others "" st) as [[t2 st2]|]; reflexivity.
  - cbn [app export_objects]. destruct (inactive obj); [apply IH|].
    destruct (export_operation g obj "" st) as [[t0 st0]|]; run;
      [|reflexivity].
    rewrite (export_objects_appends g (rest ++ others) t0),
      (export_objects_appends g rest t0), IH.
    destruct (export_objects g rest "" st0) as [[t1 st1]|]; run;
      [|reflexivity].
    destruct (export_objects g others "" st1) as [[t2 st2]|]; run;
      [|reflexivity].
    now rewrite append_assoc.
Qed.

(** X19.  [export] returns None in two cases only, and in both before it
    has numbered a line: when the options are refused with an exception,
    with the settings untouched; and when the options are accepted and an
    object of the list has no [Path], with the settings the options gave
    already in place. *)
Theorem export_gives_up_before_any_output (g0 g : settings) (st0 st : state)
    (objectslist : list pathobj) (filename argstring : string) :
  export g0 st0 objectslist filename argstring = Ok (None, g, st)
  <-> st = st0
      /\ ((exists e : exn, parse_args argstring = ParseRaises e
                           /\ is_Exception e = true /\ g = g0)
          \/ (exists args : Namespace,
                parse_args argstring = Parsed args
                /\ forallb has_Path objectslist = false
                /\ g = apply_args args g0)).
Proof.
  unfold export, processArguments. split.
  - destruct (parse_args argstring) as [args|e]; run.
    + cbn [negb].
      destruct (forallb has_Path objectslist) eqn:Hpaths; cbn [negb].
      * repeat match goal with
        | |- context [add_numbered ?add ?g ?lines ?acc ?s] =>
            destruct (add_numbered add g lines acc s) as [? ?]
        | |- context [linenumber ?g ?s] =>
            destruct (linenumber g s) as [? ?]
        end.
        destruct objectslist as [|obj rest]; [discriminate|].
        destruct (export_objects _ _ _ _) as [[gcode1 st1]|]; run;
          [|discriminate].
        repeat match goal with
        | |- context [add_numbered ?add ?g ?lines ?acc ?s] =>
            destruct (add_numbered add g lines acc s) as [? ?]
        end.
        discriminate.
      * intros Heq. inversion Heq. subst. split; [reflexivity|].
        right. exists args. auto.
    + destruct (is_Exception e) eqn:He; run; [|discriminate].
      cbn [negb]. intros Heq. inversion Heq. subst. split; [reflexivity|].
      left. exists e. auto.
  - intros [-> [(e & -> & He & ->) | (args & -> & Hpaths & ->)]].
    + rewrite He. reflexivity.
    + run. cbn [negb]. rewrite Hpaths. reflexivity.
Qed.

(** X20.  Without line numbers the postamble is written as it is, cut
    into lines and joined again with nothing added: the text [export]
    returns, when no editor changes it, ends with the postamble followed at
    once by the line "%".  A postamble that does not end with a line break
    has the "%" on its last line. *)
Theorem postamble_is_written_verbatim (g0 g : settings) (st0 st : state)
    (objectslist : list pathobj) (filename argstring text : string) :
  export g0 st0 objectslist filename argstring = Ok (Some text, g, st) ->
  OUTPUT_LINE_NUMBERS g = false ->
  GuiUp && SHOW_EDITOR g = false ->
  exists body : string, text = body +:+ POSTAMBLE g +:+ "%" +:+ LF.
Proof.
  rewrite export_generate.
  destruct (processArguments argstring g0) as [[ok g1]|]; run;
    [|discriminate].
  destruct ok; cbn [negb]; [|discriminate].
  unfold generate.
  destruct (negb (forallb has_Path objectslist)); [discriminate|].
  rewrite !add_numbered_append. cbv beta iota zeta.
  destruct (linenumber g1 _) as [n st1].
  destruct objectslist as [|obj rest]; [discriminate|].
  destruct (export_objects g1 (obj :: rest) _ st1) as [[gcode1 st2]|]; run;
    [|discriminate].
  rewrite !add_numbered_append. cbv beta iota zeta.
  intros Heq Hoff Heditor. inversion Heq. subst.
  rewrite Heditor, numbered_off, splitlines_join by exact Hoff.
  cbn [fst]. rewrite append_assoc. eexists. reflexivity.
Qed.

End Job.

(** * Worked inputs

    The theorems above at concrete inputs, run with the reference
    libraries, and the inputs on which the specification and the code part
    ways. *)

Import Reference Build Inputs.

(** C1 in inches with four digits, at the drill cycle above on a tap
    with the carried speed 500, right after the rapid G0 X1 Y5: the X of the
    cycle is the current one and is left out, the other values are
    converted. *)
Lemma tap_cycle_rewrite_witness :
  visible
    (parse_command imperial (tapping "Tap" (q 500) [approach; drill]) ""
       drill (after_emitting approach "G0 X0.0394 Y0.1969")
       {| LINENR := 5; tapSpeed := 500 |})
  = Ok (OStr (text_of_lines
                ["G0 X0.0394 Y0.1969"; "G95"; "G00 Y0.0787"; "M29 S500";
                 "G84 Y0.0787 Z-0.3937 R0.0787 F0.0591"; "G80"; "G94"]),
        {| LINENR := 5; tapSpeed := 500 |}).
Proof.
  refine (eq_trans
            (f_equal visible
               (tap_cycle_rewrite imperial
                  (tapping "Tap" (q 500) [approach; drill]) "" drill
                  (after_emitting approach "G0 X0.0394 Y0.1969")
                  {| LINENR := 5; tapSpeed := 500 |}
                  (fun v => format_fixed 4 (v * (5 # 127))) 500
                  _ _ _ _)) _).
  - left. reflexivity.
  - reflexivity.
  - intros param v _ _. reflexivity.
  - vm_compute. reflexivity.
  - vm_compute. reflexivity.
Defined.

(** C2 at M6 T5 with the default settings. *)
Lemma tool_change_lines_witness :
  visible
    (parse_command default_settings (operation "Change" []) ""
       (cmd "M6" [("T", q 5)]) initial_local initial_state)
  = Ok (OStr (text_of_lines ["M5"; "M6 T5"; "G43 H5"]), initial_state).
Proof.
  refine (eq_trans
            (f_equal visible
               (tool_change_lines default_settings (operation "Change" []) ""
                  (cmd "M6" [("T", q 5)]) initial_local initial_state (q 5) 5
                  ["T5"] _ _ _ _ _)) _).
  - reflexivity.
  - vm_compute. reflexivity.
  - reflexivity.
  - reflexivity.
  - vm_compute. reflexivity.
  - vm_compute. reflexivity.
Defined.

(** C3 as stated fails: an operation whose Active attribute is false is
    translated all the same when it stands inside a compound, because only
    the loop of [export] over its own list looks at the attribute. *)
Lemma nested_inactive_leaf_is_translated :
  returned
    (export default_settings initial_state
       [compound "Job"
          [with_Active false (operation "Pocket" [cmd "G1" [("X", q 1)]])]]
       "-" "--no-header --no-comments")
  = Ok (Some (text_of_lines
                (["G17 G54 G40 G49 G80 G90"; "G21"; "G1 X1.000"]
                 ++ postamble_lines))).
Proof. vm_compute. reflexivity. Qed.

(** C3 at an inactive operation followed by an active one. *)
Lemma inactive_toplevel_object_skipped_witness :
  export default_settings initial_state
    [with_Active false (operation "Pocket" [cmd "G1" [("X", q 1)]]);
     operation "Profile" [feed_move]] "-" ""
  = export default_settings initial_state
      [operation "Profile" [feed_move]] "-" "".
Proof.
  refine (proj1 (proj2 (inactive_toplevel_object_skipped default_settings
                   initial_state []
                   [operation "Profile" [feed_move]]
                   (with_Active false
                      (operation "Pocket" [cmd "G1" [("X", q 1)]]))
                   "-" "" _ _)) _).
  - reflexivity.
  - reflexivity.
  - discriminate.
Defined.



(** C5 as stated fails: with line numbering on, the second of two calls
    on the same inputs numbers its lines from where the first stopped. *)
Lemma second_export_continues_the_numbering :
  two_exports [operation "Profile" [feed_move]]
    "--line-numbers --no-header --no-comments"
  = Some
      (Some (text_of_lines
               ["N10 G17 G54 G40 G49 G80 G90"; "N15 G21";
                "N20 G1 X10.000 Y20.000 Z-5.000 F100.000"; "N25 M05";
                "N30 G53 G0 Z0.000"; "N35 G53 G0 X-350.000 Y0.000";
                "N40 M30"; "%"]),
       Some (text_of_lines
               ["N45 G17 G54 G40 G49 G80 G90"; "N50 G21";
                "N55 G1 X10.000 Y20.000 Z-5.000 F100.000"; "N60 M05";
                "N65 G53 G0 Z0.000"; "N70 G53 G0 X-350.000 Y0.000";
                "N75 M30"; "%"])).
Proof. vm_compute. reflexivity. Qed.

(** C5 at the same operation without line numbers. *)
Lemma export_repeats_without_numbering_witness :
  exists (text : string) (g1 : settings) (st1 : state),
    export default_settings initial_state [operation "Profile" [feed_move]]
      "-" "--no-header" = Ok (Some text, g1, st1)
    /\ export g1 st1 [operation "Profile" [feed_move]] "-" "--no-header"
       = Ok (Some text, g1, st1).
Proof.
  eexists _, _, _. split.
  - vm_compute. reflexivity.
  - refine (proj2 (proj2 (export_repeats_without_numbering default_settings
                     initial_state [operation "Profile" [feed_move]] "-"
                     "--no-header" _ _ _ _)) _ _).
    + vm_compute. reflexivity.
    + reflexivity.
    + reflexivity.
Defined.

(** C6, on the code: with line numbering on, the tap rewrite numbers
    the lines G95, G00, G84, G80 and G94 and leaves the line M29 between
    them without a number. *)
Theorem tap_start_line_is_not_numbered :
  returned
    (export default_settings initial_state
       [tapping "Tap" (q 500) [spindle_start; drill]] "-"
       "--line-numbers --no-header --no-comments")
  = Ok (Some (text_of_lines
                (["N10 G17 G54 G40 G49 G80 G90"; "N15 G21"; "N20 G95";
                  "N25 G00 X1.000 Y2.000"; "M29 S500";
                  "N30 G84 X1.000 Y2.000 Z-10.000 R2.000 F1.500"; "N35 G80";
                  "N40 G94"; "N45 M05"; "N50 G53 G0 Z0.000";
                  "N55 G53 G0 X-350.000 Y0.000"; "N60 M30"; "%"]))).
Proof. vm_compute. reflexivity. Qed.

(** C7 at an option the parser does not know. *)
Lemma export_parser_exit_propagates_witness :
  export default_settings initial_state [operation "Profile" [feed_move]]
    "-" "--bogus" = Raise SystemExit.
Proof.
  refine (export_parser_exit_propagates default_settings initial_state
            [operation "Profile" [feed_move]] "-" "--bogus" _).
  vm_compute. reflexivity.
Defined.

(** C8 at a leaf that begins with a message, comments suppressed. *)
Lemma message_without_comments_raises_witness :
  parse_command without_comments (operation "Notes" [cmd "message" []]) ""
    (cmd "message" []) initial_local initial_state
  = Raise AttributeError.
Proof.
  refine (message_without_comments_raises _ _ "" (cmd "message" [])
            initial_local initial_state [] _ _ _ _).
  - reflexivity.
  - reflexivity.
  - discriminate.
  - vm_compute. reflexivity.
Defined.

(** C9 at the option string "--inches --precision 2". *)
Lemma imperial_forces_precision_4_witness :
  exists g' : settings,
    processArguments "--inches --precision 2"
      default_settings = Ok (true, g')
    /\ UNIT_FORMAT g' = "in"
    /\ UNIT_SPEED_FORMAT g' = "in/min"
    /\ UNITS g' = "G20"
    /\ PRECISION g' = PyInt 4
    /\ precision_string g' = ".4f".
Proof.
  eapply (imperial_forces_precision_4 "--inches --precision 2").
  - vm_compute. reflexivity.
  - reflexivity.
Defined.


(** ** Further runs *)

(** The rapid move G0 X10 Y20 Z5 followed by the feed move above: the
    second line keeps its mnemonic, omits X and Y and has Z and F. *)
Example two_moves :
  parse default_settings
    (operation "Profile"
       [cmd "G0" [("X", q 10); ("Y", q 20); ("Z", q 5)]; feed_move])
    initial_state
  = Ok (OStr (text_of_lines
                ["G0 X10.000 Y20.000 Z5.000"; "G1 Z-5.000 F100.000"]),
        initial_state).
Proof. vm_compute. reflexivity. Qed.

(** The same moves in inches with four digits. *)
Example two_moves_in_inches :
  returned
    (export default_settings initial_state
       [operation "Profile"
          [cmd "G0" [("X", 254 # 10); ("Y", q 0); ("Z", q 127)]; feed_move]]
       "-" "--inches --no-header --no-comments --precision 2")
  = Ok (Some (text_of_lines
                ["G17 G54 G40 G49 G80 G90"; "G20";
                 "G0 X1.0000 Y0.0000 Z5.0000";
                 "G1 X0.3937 Y0.7874 Z-0.1969 F3.9370"; "M05";
                 "G53 G0 Z0.000"; "G53 G0 X-350.000 Y0.000"; "M30"; "%"])).
Proof. vm_compute. reflexivity. Qed.

(** A message under --no-comments makes the whole export raise. *)
Example message_stops_the_export :
  export default_settings initial_state
    [operation "Notes" [cmd "G0" [("X", q 1)]; cmd "message" []]] "-"
    "--no-comments"
  = Raise AttributeError.
Proof. vm_compute. reflexivity. Qed.

(** An option string that shlex cannot split gives None and leaves the
    module as it was. *)
Example open_quote_gives_none :
  export default_settings initial_state [operation "Profile" [feed_move]] "-"
    (String squote "G17")
  = Ok (None, default_settings, initial_state).
Proof. vm_compute. reflexivity. Qed.

(** An object without a path among the objects gives None. *)
Example object_without_path_gives_none :
  returned
    (export default_settings initial_state
       [operation "Profile" [feed_move];
        {| obj_Name := "Stock"; obj_Label := "Stock"; obj_Active := None;
           obj_Base := None; obj_CoolantMode := None; obj_CycleTime := None;
           obj_Group := None; obj_Path := None; obj_Tool := None;
           obj_SpindleSpeed := None; obj_ToolController := None |}]
       "-" "")
  = Ok None.
Proof. vm_compute. reflexivity. Qed.

(** An inactive operation alone in the list: the program has no
    operation. *)
Example inactive_object_alone :
  returned
    (export default_settings initial_state
       [with_Active false (operation "Pocket" [cmd "G1" [("X", q 1)]])]
       "-" "--no-header --no-comments")
  = Ok (Some (text_of_lines
                (["G17 G54 G40 G49 G80 G90"; "G21"] ++ postamble_lines))).
Proof. vm_compute. reflexivity. Qed.

(** A compound is translated alike whatever the Active attribute of its
    leaf says. *)
Example nested_leaf_active_or_not :
  parse default_settings
    (compound "Job"
       [with_Active false (operation "Pocket" [cmd "G1" [("X", q 1)]])])
    initial_state
  = parse default_settings
      (compound "Job"
         [with_Active true (operation "Pocket" [cmd "G1" [("X", q 1)]])])
      initial_state.
Proof. vm_compute. reflexivity. Qed.

(** Flood coolant brackets the operation, and the cycle time is
    annotated. *)
Example coolant_brackets :
  returned
    (export default_settings initial_state
       [{| obj_Name := "Pocket"; obj_Label := "Pocket"; obj_Active := Some true;
           obj_Base := None; obj_CoolantMode := Some "Flood";
           obj_CycleTime := Some "00:01:30"; obj_Group := None;
           obj_Path := Some [feed_move]; obj_Tool := None;
           obj_SpindleSpeed := None; obj_ToolController := None |}]
       "-" "--no-header --line-numbers")
  = Ok (Some (text_of_lines
                ["(BEGIN PREAMBLE)"; "N10 G17 G54 G40 G49 G80 G90"; "N15 G21";
                 "(BEGIN OPERATION: POCKET)"; "(CYCLE TIME: 00:01:30)";
                 "(COOLANT ON:FLOOD)"; "N20 M8";
                 "N25 G1 X10.000 Y20.000 Z-5.000 F100.000";
                 "(FINISH OPERATION: POCKET)"; "(COOLANT OFF:FLOOD)"; "N30 M9";
                 "(BEGIN POSTAMBLE)"; "N35 M05"; "N40 G53 G0 Z0.000";
                 "N45 G53 G0 X-350.000 Y0.000"; "N50 M30"; "%"])).
Proof. vm_compute. reflexivity. Qed.

(** ** The further properties at concrete inputs *)

Import FurtherInputs.

(** X1 at --line-numbers after comments were switched off: they stay
    off. *)
Lemma options_switch_one_way_witness :
  exists g' : settings,
    processArguments "--line-numbers" without_comments = Ok (true, g')
    /\ OUTPUT_COMMENTS g' = false.
Proof.
  eexists. split; [vm_compute; reflexivity|].
  refine (proj1 (proj2 (options_switch_one_way "--line-numbers"
                          without_comments _ true _)) _).
  - vm_compute. reflexivity.
  - reflexivity.
Defined.

(** X2 at --precision 2 after an earlier call selected inches. *)
Lemma inches_persist_precision_does_not_witness :
  exists g' : settings,
    processArguments "--precision 2" imperial = Ok (true, g')
    /\ UNIT_FORMAT g' = "in"
    /\ PRECISION g' = PyStr "2"
    /\ precision_string g' = ".2f".
Proof.
  refine (inches_persist_precision_does_not "--precision 2"
            {| no_header := false; no_comments := false;
               line_numbers := false; no_show_editor := false;
               precision := "2"; preamble := None; postamble := None;
               inches := false; no_modal := false; no_axis_modal := false;
               no_tlo := false |} imperial _ _ _).
  - vm_compute. reflexivity.
  - reflexivity.
  - reflexivity.
Defined.

(** X3 at --no-header. *)
Lemma processArguments_again_witness :
  exists g' : settings,
    processArguments "--no-header" default_settings = Ok (true, g')
    /\ processArguments "--no-header" g' = Ok (true, g').
Proof.
  eexists. split; [vm_compute; reflexivity|].
  refine (processArguments_again "--no-header" default_settings _ true _).
  vm_compute. reflexivity.
Defined.

(** X4 with the default options. *)
Lemma export_of_nothing_raises_witness :
  export default_settings initial_state [] "-" "" = Raise IndexError.
Proof.
  refine (export_of_nothing_raises default_settings initial_state "-" ""
            defaults _).
  vm_compute. reflexivity.
Defined.

(** X5 at a command without a name. *)
Lemma empty_name_raises_witness :
  parse_command default_settings (operation "Profile" []) "" (cmd "" [])
    initial_local initial_state
  = Raise IndexError.
Proof.
  refine (empty_name_raises default_settings (operation "Profile" []) ""
            (cmd "" []) initial_local initial_state _).
  reflexivity.
Defined.

(** X6 at M3 S500 on an operation without a tool. *)
Lemma spindle_start_needs_tool_witness :
  parse_command default_settings (operation "Drill" [spindle_start]) ""
    spindle_start initial_local initial_state
  = Raise AttributeError.
Proof.
  refine (spindle_start_needs_tool default_settings
            (operation "Drill" [spindle_start]) "" spindle_start
            initial_local initial_state _ _).
  - left. reflexivity.
  - left. reflexivity.
Defined.

(** X7 at M6 without parameters. *)
Lemma tool_change_needs_T_witness :
  parse_command default_settings (operation "Change" []) "" (cmd "M6" [])
    initial_local initial_state
  = Raise KeyError.
Proof.
  refine (tool_change_needs_T default_settings (operation "Change" []) ""
            (cmd "M6" []) initial_local initial_state [] _ _ _).
  - reflexivity.
  - reflexivity.
  - vm_compute. reflexivity.
Defined.

(** X8 at a message without parameters that follows a message. *)
Lemma repeated_message_loses_a_word_witness :
  parse_command default_settings (operation "Notes" []) "" bare_message
    (after_emitting bare_message "") initial_state
  = Raise IndexError.
Proof.
  refine (repeated_message_loses_a_word default_settings
            (operation "Notes" []) "" bare_message
            (after_emitting bare_message "") initial_state [] _ _ _ _ _).
  - reflexivity.
  - reflexivity.
  - reflexivity.
  - reflexivity.
  - vm_compute. reflexivity.
Defined.

(** X9 at a numbered export of one move. *)
Lemma export_counts_in_fives_witness :
  exists (r : option string) (g : settings) (st : state),
    export default_settings initial_state [operation "Profile" [feed_move]]
      "-" "--line-numbers" = Ok (r, g, st)
    /\ whole_steps initial_state st.
Proof.
  eexists _, _, _. split; [vm_compute; reflexivity|].
  eapply (export_counts_in_fives default_settings _ initial_state _
            [operation "Profile" [feed_move]] "-" "--line-numbers").
  vm_compute. reflexivity.
Defined.

(** X10 at a feed move with the carried tap speed 500. *)
Lemma untapped_operation_keeps_tapSpeed_witness :
  exists (r : outbuf) (st' : state),
    parse default_settings (operation "Profile" [feed_move])
      {| LINENR := 5; tapSpeed := 500 |} = Ok (r, st')
    /\ tapSpeed st' = 500.
Proof.
  eexists _, _. split; [vm_compute; reflexivity|].
  eapply (untapped_operation_keeps_tapSpeed default_settings
            (operation "Profile" [feed_move])
            {| LINENR := 5; tapSpeed := 500 |}).
  - reflexivity.
  - reflexivity.
  - vm_compute. reflexivity.
Defined.

(** X11 at G1 X1 K7 against G1 X1. *)
Lemma unknown_letters_are_ignored_witness :
  parse default_settings (with_Path [move_with_K] (operation "Profile" []))
    initial_state
  = parse default_settings
      (with_Path [move_without_K] (operation "Profile" [])) initial_state.
Proof.
  refine (unknown_letters_are_ignored default_settings
            (operation "Profile" []) [move_with_K] [move_without_K]
            initial_state _).
  constructor; [|constructor]. split; [reflexivity|].
  intros p Hin. simpl in Hin.
  decompose [or] Hin; subst; try contradiction; vm_compute; reflexivity.
Defined.

(** X12 at the feed move, before and after it became the current
    location. *)
Lemma no_axis_modal_forgets_location_witness :
  param_words every_word (currLocation initial_local) feed_move params
  = param_words every_word
      (update (Parameters feed_move) (currLocation initial_local)) feed_move
      params.
Proof.
  refine (no_axis_modal_forgets_location every_word
            (currLocation initial_local)
            (update (Parameters feed_move) (currLocation initial_local))
            feed_move _ _ _).
  - reflexivity.
  - exists (q 0). vm_compute. reflexivity.
  - exists (100 # 60). vm_compute. reflexivity.
Defined.

(** X13 at G0 X10 F100 followed by the feed move with the same feed. *)
Lemma rapid_feed_is_recorded_not_written_witness :
  exists (l1 : local) (st1 : state),
    parse_command default_settings
      (operation "Profile" [rapid_with_feed; feed_move]) "G1" rapid_with_feed
      initial_local initial_state = Ok (l1, st1)
    /\ param_word default_settings (currLocation initial_local)
         rapid_with_feed "F" = Ok None
    /\ currLocation l1 !! "F" = Some (100 # 60)
    /\ param_word default_settings (currLocation l1) feed_move "F" = Ok None.
Proof.
  destruct (parse_command default_settings
              (operation "Profile" [rapid_with_feed; feed_move]) "G1"
              rapid_with_feed initial_local initial_state)
    as [[l1 st1]|e] eqn:Hrun.
  - exists l1, st1. split; [reflexivity|].
    refine ((fun Hw => conj (proj1 Hw)
                         (conj (proj1 (proj2 Hw))
                            (proj2 (proj2 Hw) _ _ _)))
              (rapid_feed_is_recorded_not_written default_settings
                 (operation "Profile" [rapid_with_feed; feed_move]) "G1"
                 rapid_with_feed feed_move initial_local l1 initial_state
                 st1 (100 # 60) (100 # 60) _ _ _ _ Hrun)).
    + reflexivity.
    + vm_compute. reflexivity.
    + vm_compute. reflexivity.
    + left. reflexivity.
    + discriminate.
    + vm_compute. reflexivity.
    + exists (q 0). vm_compute. reflexivity.
  - exfalso.
    assert (Hvisible : visible (Raise e)
                       = visible (parse_command default_settings
                                    (operation "Profile"
                                       [rapid_with_feed; feed_move]) "G1"
                                    rapid_with_feed initial_local
                                    initial_state)) by now rewrite Hrun.
    revert Hvisible. vm_compute. discriminate.
Defined.

(** X14 at the fixture object: its rapid is dropped. *)
Lemma inert_commands_leave_no_trace_witness :
  parse_commands default_settings (operation "Fixture" []) [feed_move]
    initial_local initial_state
  = parse_commands default_settings (operation "Fixture" [])
      [cmd "G0" [("X", q 1)]; feed_move] initial_local initial_state.
Proof.
  refine (inert_commands_leave_no_trace default_settings
            (operation "Fixture" []) [cmd "G0" [("X", q 1)]; feed_move] _
            initial_local initial_state).
  repeat constructor; discriminate.
Defined.

(** X15 at a tool change followed by a move. *)
Lemma parse_returns_whole_lines_witness :
  exists (r : outbuf) (st' : state),
    parse default_settings
      (operation "Profile" [cmd "M6" [("T", q 5)]; feed_move]) initial_state
    = Ok (r, st')
    /\ exists t : string, r = OStr t /\ whole_lines t.
Proof.
  eexists _, _. split; [vm_compute; reflexivity|].
  eapply (parse_returns_whole_lines default_settings
            (operation "Profile" [cmd "M6" [("T", q 5)]; feed_move])
            initial_state).
  vm_compute. reflexivity.
Defined.


(** X17 at a compound of two operations. *)
Lemma group_is_its_children_witness :
  parse default_settings
    (compound "Job" [operation "Profile" [feed_move];
                     operation "Arc" [arc]]) initial_state
  = '(t, st') ← text_of_children default_settings
                  [operation "Profile" [feed_move]; operation "Arc" [arc]]
                  initial_state;
    Ok (OStr t, st').
Proof.
  refine (group_is_its_children default_settings
            [operation "Profile" [feed_move]; operation "Arc" [arc]]
            (compound "Job" [operation "Profile" [feed_move];
                             operation "Arc" [arc]]) initial_state _).
  reflexivity.
Defined.

(** X20 at the postamble M30 given without a line break. *)
Lemma postamble_is_written_verbatim_witness :
  exists (text : string) (g : settings) (st : state),
    export default_settings initial_state [operation "Profile" [feed_move]]
      "-" "--postamble M30" = Ok (Some text, g, st)
    /\ exists body : string, text = body +:+ POSTAMBLE g +:+ "%" +:+ LF.
Proof.
  eexists _, _, _. split; [vm_compute; reflexivity|].
  eapply (postamble_is_written_verbatim default_settings _ initial_state _
            [operation "Profile" [feed_move]] "-" "--postamble M30").
  - vm_compute. reflexivity.
  - reflexivity.
  - reflexivity.
Defined.

(** The postamble M30 runs into the closing line. *)
Example postamble_without_line_break :
  returned
    (export default_settings initial_state [operation "Profile" [feed_move]]
       "-" "--no-header --no-comments --postamble M30")
  = Ok (Some (text_of_lines
                ["G17 G54 G40 G49 G80 G90"; "G21";
                 "G1 X10.000 Y20.000 Z-5.000 F100.000"; "M30%"])).
Proof. vm_compute. reflexivity. Qed.

(** A G0 with a feed, then a feed move with the same feed: no line has
    an F word. *)
Example feed_lost_after_rapid :
  parse default_settings (operation "Profile" [rapid_with_feed; feed_move])
    initial_state
  = Ok (OStr (text_of_lines ["G0 X10.000"; "G1 Y20.000 Z-5.000"]),
        initial_state).
Proof. vm_compute. reflexivity. Qed.
